(** * compare-syllabi: the document diff engine of [app.py]

    A shallow embedding of the four functions of [app.py] that make up the
    diff engine ([extract_text_from_item], [compare_text_content],
    [compare_tables], [diff_content]) and the properties the specification
    states about them.

    The functions work on values decoded from JSON, which Python holds as
    [None], [bool], numbers, [str], [list] and [dict]; every operation the
    code applies to them ([in], subscripting, [.get], iteration, [len],
    truth testing, [+=] on strings) is modelled with the exception it
    raises on an operand of the wrong kind. *)

From stdpp Require Import gmap strings list pretty sorting.

Set Warnings "-register-all".

(** ** JSON values as Python holds them *)

(** A [dict] is kept as the list of its items in insertion order, which is
    the order a [for] loop over the dict visits its keys; a key occurs at
    most once and lookup returns the first item with that key.  A number is
    an integer; the code never computes with a number, it only tests one
    for truth, and a float behaves there like an integer that is zero
    exactly when the float is.  A character is a code point below 256. *)
Inductive json : Type :=
| JNull
| JBool (b : bool)
| JNum (n : Z)
| JStr (s : string)
| JArr (l : list json)
| JObj (m : list (string * json)).

Inductive exn : Type := KeyError | TypeError | AttributeError.

Inductive result (A : Type) : Type :=
| Ok (a : A)
| Raise (e : exn).
Arguments Ok {A} a.
Arguments Raise {A} e.

#[global] Instance result_ret : MRet result := λ A a, Ok a.
#[global] Instance result_bind : MBind result := λ A B f m,
  match m with
  | Ok a => f a
  | Raise e => Raise e
  end.

(** [for x in xs: s = body(s, x)], where the body may raise. *)
Fixpoint for_each {A S : Type} (xs : list A) (s : S) (body : S → A → result S)
  : result S :=
  match xs with
  | [] => Ok s
  | x :: xs' => s' ← body s x; for_each xs' s' body
  end.

(** [enumerate(xs)] *)
Definition enumerate {A : Type} (xs : list A) : list (nat * A) :=
  zip (seq 0 (length xs)) xs.

Module Py.

Fixpoint assoc (k : string) (m : list (string * json)) : option json :=
  match m with
  | [] => None
  | (k', v) :: m' => if String.eqb k k' then Some v else assoc k m'
  end.

(** [k in s] for two strings: [k] occurs in [s] as a substring. *)
Fixpoint substring_of (k s : string) : bool :=
  String.prefix k s ||
  match s with
  | EmptyString => false
  | String _ s' => substring_of k s'
  end.

Definition chars (s : string) : list json :=
  (λ c, JStr (String c EmptyString)) <$> String.list_ascii_of_string s.

(** [k in x] for a string [k].  On a list it compares [k] with every
    element, and only a string can be equal to it. *)
Definition contains (k : string) (x : json) : result bool :=
  match x with
  | JObj m => Ok (bool_decide (is_Some (assoc k m)))
  | JArr l =>
      Ok (existsb (λ e, match e with JStr s => String.eqb k s | _ => false end) l)
  | JStr s => Ok (substring_of k s)
  | _ => Raise TypeError
  end.

(** [x[k]] for a string [k]: only a dict can be subscripted by a string. *)
Definition getitem (x : json) (k : string) : result json :=
  match x with
  | JObj m => match assoc k m with Some v => Ok v | None => Raise KeyError end
  | _ => Raise TypeError
  end.

(** [x.get(k, d)]: only a dict has the method. *)
Definition get_default (x : json) (k : string) (d : json) : result json :=
  match x with
  | JObj m => Ok (default d (assoc k m))
  | _ => Raise AttributeError
  end.

(** [x.get(k)] *)
Definition get (x : json) (k : string) : result json := get_default x k JNull.

(** The values a [for] loop over [x] visits. *)
Definition iter (x : json) : result (list json) :=
  match x with
  | JArr l => Ok l
  | JObj m => Ok (JStr <$> m.*1)
  | JStr s => Ok (chars s)
  | _ => Raise TypeError
  end.

(** [len(x)] *)
Definition len (x : json) : result nat :=
  match x with
  | JArr l => Ok (length l)
  | JObj m => Ok (length m)
  | JStr s => Ok (String.length s)
  | _ => Raise TypeError
  end.

(** The truth value of [x] in an [if]. *)
Definition truthy (x : json) : bool :=
  match x with
  | JNull => false
  | JBool b => b
  | JNum n => negb (n =? 0)%Z
  | JStr s => negb (String.eqb s "")
  | JArr l => negb (bool_decide (l = []))
  | JObj m => negb (bool_decide (m = []))
  end.

(** [text + v] for a string [text]. *)
Definition str_add (text : string) (v : json) : result string :=
  match v with
  | JStr s => Ok (text +:+ s)
  | _ => Raise TypeError
  end.

(** [c.isspace()] on the code points below 256. *)
Definition isspace (c : Ascii.ascii) : bool :=
  let n := Ascii.nat_of_ascii c in
  ((9 <=? n) && (n <=? 13)) || ((28 <=? n) && (n <=? 32))
  || (n =? 133) || (n =? 160).

Fixpoint lstrip (s : string) : string :=
  match s with
  | EmptyString => EmptyString
  | String c s' => if isspace c then lstrip s' else s
  end.

Definition rstrip (s : string) : string := String.rev (lstrip (String.rev s)).

(** [s.strip()] *)
Definition strip (s : string) : string := rstrip (lstrip s).

(** [s[i:j]] for [0 <= i <= j]. *)
Definition slice (s : string) (i j : nat) : string := String.substring i (j - i) s.

End Py.

(** ** Normalized elements: [extract_text_from_item] *)

(** The dict [extract_text_from_item] returns, by its ["type"] entry:
    [{"type": "paragraph", "text", "style", "original"}] or
    [{"type": "table", "data", "original"}]. *)
Inductive processed : Type :=
| Paragraph (text : string) (style : json) (original : json)
| Table (data : json) (original : json).

Definition processed_type (p : processed) : string :=
  match p with
  | Paragraph _ _ _ => "paragraph"
  | Table _ _ => "table"
  end.

(** The body of the loop over the elements of a paragraph:
    [if "textRun" in element: text += element["textRun"]["content"]]. *)
Definition add_text_run (text : string) (element : json) : result string :=
  has_run ← Py.contains "textRun" element;
  if has_run : bool then
    run ← Py.getitem element "textRun";
    content ← Py.getitem run "content";
    Py.str_add text content
  else Ok text.

Definition extract_text_from_item (item : json) : result (option processed) :=
  has_paragraph ← Py.contains "paragraph" item;
  if has_paragraph : bool then
    paragraph ← Py.getitem item "paragraph";
    has_elements ← Py.contains "elements" paragraph;
    if has_elements : bool then
      paragraph ← Py.getitem item "paragraph";
      elements ← Py.getitem paragraph "elements" ≫= Py.iter;
      text ← for_each elements EmptyString add_text_run;
      if negb (String.eqb (Py.strip text) "") then
        paragraph ← Py.getitem item "paragraph";
        paragraph_style ← Py.get_default paragraph "paragraphStyle" (JObj []);
        style ← Py.get_default paragraph_style "namedStyleType" (JStr "NORMAL_TEXT");
        Ok (Some (Paragraph (Py.strip text) style item))
      else Ok None
    else Ok None
  else
    has_table ← Py.contains "table" item;
    if has_table : bool then
      data ← Py.getitem item "table";
      Ok (Some (Table data item))
    else Ok None.

(** Items in the shape of the wire format, for the scenarios. *)
Definition text_run (s : string) : json := JObj [("textRun", JObj [("content", JStr s)])].
Definition paragraph_item (runs : list string) : json :=
  JObj [("paragraph", JObj [("elements", JArr (text_run <$> runs))])].




(** ** The table comparator: [compare_tables] *)

Record location : Type := { row : nat; cell : nat }.

(** A dict [compare_tables] emits: [{"type": "structure", "message": m}], or
    [{"type": t, "content": {"type": "table", "text": s, "location": l}}]
    with [t] one of ["removed"] and ["added"]. *)
Inductive table_diff : Type :=
| StructureDiff (message : string)
| CellDiff (type : string) (text : string) (loc : location).

(** [diff["type"]] *)
Definition table_diff_type (d : table_diff) : string :=
  match d with
  | StructureDiff _ => "structure"
  | CellDiff type _ _ => type
  end.

(** [if element.get("textRun"): text += element["textRun"]["content"]] *)
Definition add_cell_run (text : string) (element : json) : result string :=
  run ← Py.get element "textRun";
  if Py.truthy run then
    run ← Py.getitem element "textRun";
    content ← Py.getitem run "content";
    Py.str_add text content
  else Ok text.

(** The body of the loop over [cell["content"]]. *)
Definition add_cell_content (text : string) (content : json) : result string :=
  paragraph ← Py.get content "paragraph";
  has_elements ←
    (if Py.truthy paragraph then
       paragraph ← Py.getitem content "paragraph";
       elements ← Py.get paragraph "elements";
       Ok (Py.truthy elements)
     else Ok false);
  if has_elements : bool then
    paragraph ← Py.getitem content "paragraph";
    elements ← Py.getitem paragraph "elements" ≫= Py.iter;
    for_each elements text add_cell_run
  else Ok text.

(** The text of a cell: the block of [compare_tables] that fills [text1]
    from [cell1], and then again [text2] from [cell2]. *)
Definition cell_text (cell : json) : result string :=
  content ← Py.get cell "content";
  if Py.truthy content then
    contents ← Py.getitem cell "content" ≫= Py.iter;
    for_each contents EmptyString add_cell_content
  else Ok EmptyString.

(** The body of the loop over the cells of a row. *)
Definition compare_cells (row_idx : nat) (diffs : list table_diff)
    (c : nat * (json * json)) : result (list table_diff) :=
  let '(cell_idx, (cell1, cell2)) := c in
  text1 ← cell_text cell1;
  text2 ← cell_text cell2;
  if negb (String.eqb text1 text2) then
    let diffs :=
      if negb (String.eqb text1 "")
      then diffs ++ [CellDiff "removed" text1 {| row := row_idx; cell := cell_idx |}]
      else diffs in
    let diffs :=
      if negb (String.eqb text2 "")
      then diffs ++ [CellDiff "added" text2 {| row := row_idx; cell := cell_idx |}]
      else diffs in
    Ok diffs
  else Ok diffs.

(** The body of the loop over the rows. *)
Definition compare_rows (diffs : list table_diff) (r : nat * (json * json))
  : result (list table_diff) :=
  let '(row_idx, (row1, row2)) := r in
  len1 ← Py.getitem row1 "tableCells" ≫= Py.len;
  len2 ← Py.getitem row2 "tableCells" ≫= Py.len;
  if negb (len1 =? len2) then
    Ok (diffs ++ [StructureDiff ("Different number of cells in row " +:+ pretty row_idx)])
  else
    cells1 ← Py.getitem row1 "tableCells" ≫= Py.iter;
    cells2 ← Py.getitem row2 "tableCells" ≫= Py.iter;
    for_each (enumerate (zip cells1 cells2)) diffs (compare_cells row_idx).

Definition compare_tables (table1 table2 : json) : result (list table_diff) :=
  len1 ← Py.getitem table1 "tableRows" ≫= Py.len;
  len2 ← Py.getitem table2 "tableRows" ≫= Py.len;
  if negb (len1 =? len2) then
    Ok [StructureDiff "Different number of rows"]
  else
    rows1 ← Py.getitem table1 "tableRows" ≫= Py.iter;
    rows2 ← Py.getitem table2 "tableRows" ≫= Py.iter;
    for_each (enumerate (zip rows1 rows2)) [] compare_rows.

(** ** The diff engine: [diff_content] *)

(** The ["content"] of a diff record: a normalized element, or for a record
    that comes from the table comparator
    [{"type": "table", "data": diff, "original": item}]. *)
Inductive diff_payload : Type :=
| Element (p : processed)
| TableEntry (data : table_diff) (original : json).

(** [{"type": t, "content": c}] *)
Record diff_record : Type := { dr_type : string; dr_content : diff_payload }.

Definition original (p : processed) : json :=
  match p with
  | Paragraph _ _ o => o
  | Table _ o => o
  end.

(** The list comprehension that wraps the records of the table comparator. *)
Definition wrap_table_diffs (processed1 processed2 : processed)
    (table_diffs : list table_diff) : list diff_record :=
  (λ diff,
     {| dr_type := table_diff_type diff;
        dr_content :=
          TableEntry diff
            (if String.eqb (table_diff_type diff) "removed"
             then original processed1 else original processed2) |})
  <$> table_diffs.

(** The inner loop of the first pass: scan [content2] for the first element
    of the type of [processed1]; the result is [found_match] and the
    records so far. *)
Fixpoint find_match (processed1 : processed) (content2 : list json)
    (structured_diffs : list diff_record) : result (bool * list diff_record) :=
  match content2 with
  | [] => Ok (false, structured_diffs)
  | item2 :: content2' =>
      processed2 ← extract_text_from_item item2;
      match processed2 with
      | None => find_match processed1 content2' structured_diffs
      | Some processed2 =>
          match processed1, processed2 with
          | Paragraph text1 _ _, Paragraph text2 _ _ =>
              Ok (true,
                  if negb (String.eqb text1 text2)
                  then structured_diffs
                         ++ [{| dr_type := "removed"; dr_content := Element processed1 |};
                             {| dr_type := "added"; dr_content := Element processed2 |}]
                  else structured_diffs)
          | Table data1 _, Table data2 _ =>
              table_diffs ← compare_tables data1 data2;
              Ok (true,
                  match table_diffs with
                  | [] => structured_diffs
                  | _ => structured_diffs
                           ++ wrap_table_diffs processed1 processed2 table_diffs
                  end)
          | _, _ => find_match processed1 content2' structured_diffs
          end
      end
  end.

(** The body of the first pass. *)
Definition forward_step (content2 : list json) (structured_diffs : list diff_record)
    (item1 : json) : result (list diff_record) :=
  processed1 ← extract_text_from_item item1;
  match processed1 with
  | None => Ok structured_diffs
  | Some processed1 =>
      '(found_match, structured_diffs) ← find_match processed1 content2 structured_diffs;
      if found_match : bool then Ok structured_diffs
      else Ok (structured_diffs
                 ++ [{| dr_type := "removed"; dr_content := Element processed1 |}])
  end.

(** The inner loop of the second pass: is there an element of [content1]
    that counts as [processed2]? *)
Fixpoint found_in (processed2 : processed) (content1 : list json) : result bool :=
  match content1 with
  | [] => Ok false
  | item1 :: content1' =>
      processed1 ← extract_text_from_item item1;
      match processed1, processed2 with
      | Some (Paragraph text1 _ _), Paragraph text2 _ _ =>
          if String.eqb text1 text2 then Ok true
          else found_in processed2 content1'
      | Some (Table data1 _), Table data2 _ =>
          len1 ← Py.getitem data1 "tableRows" ≫= Py.len;
          len2 ← Py.getitem data2 "tableRows" ≫= Py.len;
          if len1 =? len2 then Ok true
          else found_in processed2 content1'
      | _, _ => found_in processed2 content1'
      end
  end.

(** The body of the second pass. *)
Definition backward_step (content1 : list json) (structured_diffs : list diff_record)
    (item2 : json) : result (list diff_record) :=
  processed2 ← extract_text_from_item item2;
  match processed2 with
  | None => Ok structured_diffs
  | Some processed2 =>
      found_in_content1 ← found_in processed2 content1;
      if found_in_content1 : bool then Ok structured_diffs
      else Ok (structured_diffs
                 ++ [{| dr_type := "added"; dr_content := Element processed2 |}])
  end.

Definition diff_content (content1 content2 : list json) : result (list diff_record) :=
  structured_diffs ← for_each content1 [] (forward_step content2);
  for_each content2 structured_diffs (backward_step content1).

(** Tables in the shape of the wire format, from the texts of their cells. *)
Definition cell_item (s : string) : json :=
  JObj [("content", JArr [JObj [("paragraph", JObj [("elements", JArr [text_run s])])]])].
Definition row_item (cells : list string) : json :=
  JObj [("tableCells", JArr (cell_item <$> cells))].
Definition table_data (rows : list (list string)) : json :=
  JObj [("tableRows", JArr (row_item <$> rows))].
Definition table_item (rows : list (list string)) : json :=
  JObj [("table", table_data rows)].

Definition removed (p : processed) : diff_record :=
  {| dr_type := "removed"; dr_content := Element p |}.
Definition added (p : processed) : diff_record :=
  {| dr_type := "added"; dr_content := Element p |}.
(** What [extract_text_from_item] makes of [paragraph_item [s]] when [s] has
    no white space around it. *)
Definition plain (s : string) : processed :=
  Paragraph s (JStr "NORMAL_TEXT") (paragraph_item [s]).

(** ** The text span differ: [compare_text_content] *)

(** Modelled from the spec: [difflib.SequenceMatcher], which
    [compare_text_content] calls for its opcodes, is Python's standard
    library and not part of app.py.  The specification (4.2) describes it as
    the classic alignment by longest matching blocks; the definitions below
    follow the library's [__chain_b], [find_longest_match],
    [get_matching_blocks] and [get_opcodes] for a matcher built as app.py
    builds it, [SequenceMatcher(None, a, b)]: no junk predicate, and the
    automatic heuristic that drops the popular elements of a long [b]. *)
Module Difflib.

Inductive tag : Type := Replace | Delete | Insert | Equal.

(** [(tag, i1, i2, j1, j2)] *)
Record opcode : Type :=
  { op : tag; i1 : nat; i2 : nat; j1 : nat; j2 : nat }.

(** [Match(a=i, b=j, size=k)] *)
Definition block : Type := nat * nat * nat.

(** The order of [matching_blocks.sort()] on triples. *)
Definition block_le (x y : block) : Prop :=
  let '(i, j, k) := x in
  let '(i', j', k') := y in
  i < i' ∨ (i = i' ∧ (j < j' ∨ (j = j' ∧ k ≤ k'))).

#[global] Instance block_le_dec (x y : block) : Decision (block_le x y).
Proof. destruct x as [[??]?], y as [[??]?]; simpl; apply _. Defined.

(** [b2j] after [__chain_b]: for each element of [b] the indices where it
    occurs, in increasing order, with the popular elements deleted. *)
Definition chain_b (b : list Ascii.ascii) : gmap Ascii.ascii (list nat) :=
  let b2j : gmap Ascii.ascii (list nat) :=
    foldl (λ b2j '(i, elt), <[elt := default [] (b2j !! elt) ++ [i]]> b2j)
          ∅ (enumerate b) in
  let n := length b in
  if 200 <=? n then
    let ntest := n `div` 100 + 1 in
    let popular : gset Ascii.ascii :=
      dom (filter (λ '(_, idxs), ntest < length idxs) b2j) in
    filter (λ '(elt, _), elt ∉ popular) b2j
  else b2j.

(** [self.bjunk]: empty, as [isjunk] is [None]. *)
Definition bjunk : gset Ascii.ascii := ∅.
Definition isbjunk (x : Ascii.ascii) : bool := bool_decide (x ∈ bjunk).

(** [j2len.get(j-1, 0)]: no key is negative. *)
Definition j2lenget (j2len : gmap nat nat) (j : nat) : nat :=
  match j with
  | 0 => 0
  | S j' => default 0 (j2len !! j')
  end.

Section Matcher.
Variables a b : list Ascii.ascii.

(** [isbjunk(b[j])] has the value [junk]; the conditions of the loops that
    ask keep [j] in range. *)
Definition junk_at (junk : bool) (j : nat) : bool :=
  from_option (λ y, bool_decide (isbjunk y = junk)) false (b !! j).

(** [a[i] == b[j]] *)
Definition same_at (i j : nat) : bool :=
  match a !! i, b !! j with
  | Some x, Some y => bool_decide (x = y)
  | _, _ => false
  end.

Section Longest.
Variables alo ahi blo bhi : nat.

(** The loop over the indices [j] of [b] where [a[i]] occurs.  A match
    of length [k] that ends at [a[i]] has [k <= i + 1], so that
    [i + 1 - k] is the code's [i-k+1]. *)
Fixpoint scan_row (i : nat) (js : list nat) (j2len newj2len : gmap nat nat)
    (best : block) : gmap nat nat * block :=
  match js with
  | [] => (newj2len, best)
  | j :: js' =>
      if j <? blo then scan_row i js' j2len newj2len best
      else if bhi <=? j then (newj2len, best)
      else
        let k := j2lenget j2len j + 1 in
        let newj2len := <[j := k]> newj2len in
        let '(_, _, bestsize) := best in
        let best := if bestsize <? k then (i + 1 - k, j + 1 - k, k) else best in
        scan_row i js' j2len newj2len best
  end.

(** The first [while] (with [junk = false]) and the third (with
    [junk = true]): grow the block to the left. *)
Fixpoint extend_left (junk : bool) (besti bestj bestsize : nat) : block :=
  match besti with
  | 0 => (besti, bestj, bestsize)
  | S besti' =>
      if (alo <? besti) && (blo <? bestj) && junk_at junk (bestj - 1)
         && same_at (besti - 1) (bestj - 1)
      then extend_left junk besti' (bestj - 1) (bestsize + 1)
      else (besti, bestj, bestsize)
  end.

(** The second and the fourth [while]: grow the block to the right;
    [n] is [ahi - (besti + bestsize)], which the loop cannot outrun. *)
Fixpoint extend_right (junk : bool) (n besti bestj bestsize : nat) : block :=
  match n with
  | 0 => (besti, bestj, bestsize)
  | S n' =>
      if (besti + bestsize <? ahi) && (bestj + bestsize <? bhi)
         && junk_at junk (bestj + bestsize)
         && same_at (besti + bestsize) (bestj + bestsize)
      then extend_right junk n' besti bestj (bestsize + 1)
      else (besti, bestj, bestsize)
  end.

Definition find_longest_match : block :=
  let b2j := chain_b b in
  let '(_, (besti, bestj, bestsize)) :=
    foldl (λ '(j2len, best) i,
             let js := from_option (λ x, default [] (b2j !! x)) [] (a !! i) in
             scan_row i js j2len ∅ best)
          (∅, (alo, blo, 0)) (seq alo (ahi - alo)) in
  let '(besti, bestj, bestsize) := extend_left false besti bestj bestsize in
  let '(besti, bestj, bestsize) :=
    extend_right false (ahi - (besti + bestsize)) besti bestj bestsize in
  let '(besti, bestj, bestsize) := extend_left true besti bestj bestsize in
  extend_right true (ahi - (besti + bestsize)) besti bestj bestsize.

End Longest.

(** The [while queue:] loop.  The head of [queue] is the end of the
    Python list, where [pop] takes and [append] puts.  Every turn
    either ends a range or splits it around a block of at least one
    element, so [fuel] bounds the turns; the result is [None] when it
    does not suffice. *)
Fixpoint matching_loop (fuel : nat) (queue : list (nat * nat * nat * nat))
    (matching_blocks : list block) : option (list block) :=
  match queue with
  | [] => Some matching_blocks
  | (alo, ahi, blo, bhi) :: queue =>
      match fuel with
      | 0 => None
      | S fuel' =>
          let '(i, j, k) := find_longest_match alo ahi blo bhi in
          if negb (k =? 0) then
            let matching_blocks := matching_blocks ++ [(i, j, k)] in
            let queue :=
              if (alo <? i) && (blo <? j) then (alo, i, blo, j) :: queue
              else queue in
            let queue :=
              if (i + k <? ahi) && (j + k <? bhi) then (i + k, ahi, j + k, bhi) :: queue
              else queue in
            matching_loop fuel' queue matching_blocks
          else matching_loop fuel' queue matching_blocks
      end
  end.

(** The loop that merges adjacent blocks; the state is
    [(i1, j1, k1)] and [non_adjacent]. *)
Definition collapse (st : block * list block) (x : block) : block * list block :=
  let '((i1, j1, k1), non_adjacent) := st in
  let '(i2, j2, k2) := x in
  if (i1 + k1 =? i2) && (j1 + k1 =? j2) then ((i1, j1, k1 + k2), non_adjacent)
  else
    ((i2, j2, k2),
     if negb (k1 =? 0) then non_adjacent ++ [(i1, j1, k1)] else non_adjacent).

Definition get_matching_blocks : option (list block) :=
  let la := length a in
  let lb := length b in
  matching_blocks ← matching_loop (2 * la + 1) [(0, la, 0, lb)] [];
  let matching_blocks := merge_sort block_le matching_blocks in
  let '((i1, j1, k1), non_adjacent) := foldl collapse ((0, 0, 0), []) matching_blocks in
  let non_adjacent :=
    if negb (k1 =? 0) then non_adjacent ++ [(i1, j1, k1)] else non_adjacent in
  Some (non_adjacent ++ [(la, lb, 0)]).

(** The body of the loop of [get_opcodes]; the state is [(i, j)] and
    [answer]. *)
Definition opcode_step (st : nat * nat * list opcode) (x : block)
  : nat * nat * list opcode :=
  let '(i, j, answer) := st in
  let '(ai, bj, size) := x in
  let tag :=
    if (i <? ai) && (j <? bj) then Some Replace
    else if i <? ai then Some Delete
    else if j <? bj then Some Insert
    else None in
  let answer :=
    match tag with
    | Some t => answer ++ [{| op := t; i1 := i; i2 := ai; j1 := j; j2 := bj |}]
    | None => answer
    end in
  let i := ai + size in
  let j := bj + size in
  let answer :=
    if negb (size =? 0)
    then answer ++ [{| op := Equal; i1 := ai; i2 := i; j1 := bj; j2 := j |}]
    else answer in
  (i, j, answer).

Definition get_opcodes : option (list opcode) :=
  blocks ← get_matching_blocks;
  Some (foldl opcode_step (0, 0, []) blocks).2.

End Matcher.

End Difflib.

(** A record of [compare_text_content]:
    [{"type": t, "text": s, "fullText": f, "range": [lo, hi]}]. *)
Record span : Type :=
  { sp_type : string; sp_text : string; sp_full_text : string; sp_range : nat * nat }.

(** The body of the loop over the opcodes: the [if]/[elif] chain, which
    has no branch for ['equal']. *)
Definition span_step (text1 text2 : string) (result : list span) (o : Difflib.opcode)
  : list span :=
  let '(Difflib.Build_opcode op i1 i2 j1 j2) := o in
  match op with
  | Difflib.Delete =>
      result ++ [{| sp_type := "removed"; sp_text := Py.slice text1 i1 i2;
                    sp_full_text := text1; sp_range := (i1, i2) |}]
  | Difflib.Insert =>
      result ++ [{| sp_type := "added"; sp_text := Py.slice text2 j1 j2;
                    sp_full_text := text2; sp_range := (j1, j2) |}]
  | Difflib.Replace =>
      (result ++ [{| sp_type := "removed"; sp_text := Py.slice text1 i1 i2;
                     sp_full_text := text1; sp_range := (i1, i2) |}])
        ++ [{| sp_type := "added"; sp_text := Py.slice text2 j1 j2;
               sp_full_text := text2; sp_range := (j1, j2) |}]
  | Difflib.Equal => result
  end.

(** The result is [None] only if the matcher runs out of fuel, which
    [compare_text_content_total] excludes. *)
Definition compare_text_content (text1 text2 : string) : option (list span) :=
  opcodes ← Difflib.get_opcodes (String.list_ascii_of_string text1)
                                (String.list_ascii_of_string text2);
  Some (foldl (span_step text1 text2) [] opcodes).

(** ** The specification's view of well-formed input *)

(** An element in the wire format, [{ textRun?: { content: string } }]. *)
Definition wf_element (element : json) : bool :=
  match element with
  | JObj e =>
      match Py.assoc "textRun" e with
      | None => true
      | Some (JObj run) =>
          match Py.assoc "content" run with
          | Some (JStr _) => true
          | _ => false
          end
      | Some _ => false
      end
  | _ => false
  end.

(** The content of the [textRun] of an element, if it has one. *)
Definition run_content (element : json) : option string :=
  match element with
  | JObj e =>
      match Py.assoc "textRun" e with
      | Some (JObj run) =>
          match Py.assoc "content" run with
          | Some (JStr s) => Some s
          | _ => None
          end
      | _ => None
      end
  | _ => None
  end.

(** The content of every [textRun] sub-element, in document order, as one
    string. *)
Definition paragraph_text (elements : list json) : string :=
  String.concat "" (omap run_content elements).

(** [namedStyleType], or ["NORMAL_TEXT"] when absent. *)
Definition named_style (paragraph : list (string * json)) : json :=
  match Py.assoc "paragraphStyle" paragraph with
  | Some (JObj style) => default (JStr "NORMAL_TEXT") (Py.assoc "namedStyleType" style)
  | _ => JStr "NORMAL_TEXT"
  end.

Definition elements_of (paragraph : list (string * json)) : list json :=
  match Py.assoc "elements" paragraph with
  | Some (JArr elements) => elements
  | _ => []
  end.

(** A paragraph in the wire format,
    [{ elements: [...], paragraphStyle?: { namedStyleType: string } }];
    [elements] may be missing. *)
Definition wf_paragraph (paragraph : list (string * json)) : bool :=
  match Py.assoc "elements" paragraph with
  | None => true
  | Some (JArr elements) => forallb wf_element elements
  | Some _ => false
  end
  &&
  match Py.assoc "paragraphStyle" paragraph with
  | None | Some (JObj _) => true
  | Some _ => false
  end.

(** A document item: a dict whose [paragraph], if it has one, is
    well-formed. *)
Definition wf_item (item : json) : bool :=
  match item with
  | JObj m =>
      match Py.assoc "paragraph" m with
      | None => true
      | Some (JObj paragraph) => wf_paragraph paragraph
      | Some _ => false
      end
  | _ => false
  end.

(** [normalize] as section 4.1 of the specification words it, with the
    table of a table item kept as it came. *)
Definition normalize (item : json) : option processed :=
  match item with
  | JObj m =>
      match Py.assoc "paragraph" m with
      | Some (JObj paragraph) =>
          let trimmed := Py.strip (paragraph_text (elements_of paragraph)) in
          if decide (trimmed = "") then None
          else Some (Paragraph trimmed (named_style paragraph) item)
      | Some _ => None
      | None =>
          match Py.assoc "table" m with
          | Some table => Some (Table table item)
          | None => None
          end
      end
  | _ => None
  end.

(** [xs] mapped through [f], which may raise. *)
Fixpoint map_result {A B : Type} (f : A → result B) (xs : list A) : result (list B) :=
  match xs with
  | [] => Ok []
  | x :: xs' => y ← f x; ys ← map_result f xs'; Ok (y :: ys)
  end.

(** The texts of the cells of a row, read off with the code's own
    [cell_text]. *)
Definition row_texts (row : json) : result (list string) :=
  cells ← Py.getitem row "tableCells" ≫= Py.iter; map_result cell_text cells.

(** The rows of a table as the texts of their cells: the [Table{rows}] of
    the specification. *)
Definition table_texts (table : json) : result (list (list string)) :=
  rows ← Py.getitem table "tableRows" ≫= Py.iter; map_result row_texts rows.

(** Section 4.3 of the specification on the texts of two cells at row [r],
    cell [c]. *)
Definition cell_records (r c : nat) (text1 text2 : string) : list table_diff :=
  if decide (text1 = text2) then []
  else
    (if decide (text1 = "") then []
     else [CellDiff "removed" text1 {| row := r; cell := c |}])
    ++ (if decide (text2 = "") then []
        else [CellDiff "added" text2 {| row := r; cell := c |}]).

Definition row_records (r : nat) (row1 row2 : list string) : list table_diff :=
  if decide (length row1 = length row2)
  then concat (imap (λ c '(text1, text2), cell_records r c text1 text2) (zip row1 row2))
  else [StructureDiff ("Different number of cells in row " +:+ pretty r)].

Definition compare_grids (rows1 rows2 : list (list string)) : list table_diff :=
  if decide (length rows1 = length rows2)
  then concat (imap (λ r '(row1, row2), row_records r row1 row2) (zip rows1 rows2))
  else [StructureDiff "Different number of rows"].

(** Two tables have the same shape: as many rows, and row by row as many
    cells. *)
Definition same_shape (rows1 rows2 : list (list string)) : Prop :=
  Forall2 (λ row1 row2, length row1 = length row2) rows1 rows2.

Definition is_structure (d : table_diff) : bool :=
  String.eqb (table_diff_type d) "structure".

(** The three kinds of record. *)
Definition record_kind (type : string) : Prop :=
  type = "removed" ∨ type = "added" ∨ type = "structure".

Definition kinds_ok (diffs : list table_diff) : Prop :=
  Forall (λ d, record_kind (table_diff_type d)) diffs.

Definition records_ok (diffs : list diff_record) : Prop :=
  Forall (λ d, record_kind (dr_type d)) diffs.

(** [outputs] are what [extract_text_from_item] returns on [items]. *)
Definition normalized (items : list json) (outputs : list (option processed)) : Prop :=
  Forall2 (λ item o, extract_text_from_item item = Ok o) items outputs.

(** The texts of the paragraphs among normalized elements. *)
Definition paragraph_texts (outputs : list (option processed)) : list string :=
  omap (λ o, match o with Some (Paragraph text _ _) => Some text | _ => None end) outputs.

(** Every paragraph has the text [text] and every table the cell texts
    [rows]. *)
Definition uniform (text : string) (rows : list (list string))
    (o : option processed) : Prop :=
  match o with
  | None => True
  | Some (Paragraph t _ _) => t = text
  | Some (Table data _) => table_texts data = Ok rows
  end.

(** Is there an element of the type [type]? *)
Definition has_type (type : string) (outputs : list (option processed)) : bool :=
  existsb (λ o, match o with
                | Some p => String.eqb (processed_type p) type
                | None => false
                end) outputs.

(** ** The specification's view of the text span differ *)

Definition removed_span (old : string) (i1 i2 : nat) : span :=
  {| sp_type := "removed"; sp_text := Py.slice old i1 i2;
     sp_full_text := old; sp_range := (i1, i2) |}.

Definition added_span (new : string) (j1 j2 : nat) : span :=
  {| sp_type := "added"; sp_text := Py.slice new j1 j2;
     sp_full_text := new; sp_range := (j1, j2) |}.

(** Section 4.2 of the specification: the records of one run. *)
Definition span_records (old new : string) (o : Difflib.opcode) : list span :=
  match Difflib.op o with
  | Difflib.Delete => [removed_span old (Difflib.i1 o) (Difflib.i2 o)]
  | Difflib.Insert => [added_span new (Difflib.j1 o) (Difflib.j2 o)]
  | Difflib.Replace =>
      [removed_span old (Difflib.i1 o) (Difflib.i2 o);
       added_span new (Difflib.j1 o) (Difflib.j2 o)]
  | Difflib.Equal => []
  end.

(** A block lies in the range it was searched in. *)
Definition block_in (alo ahi blo bhi : nat) (x : Difflib.block) : Prop :=
  let '(i, j, k) := x in alo ≤ i ∧ i + k ≤ ahi ∧ blo ≤ j ∧ j + k ≤ bhi.

(** Before the row [i], every length in [j2len] is that of a match that
    starts in the range and ends at [a[i-1]] and [b[j]]. *)
Definition j2len_in (alo blo i : nat) (j2len : gmap nat nat) : Prop :=
  ∀ j v, j2len !! j = Some v → v ≤ i - alo ∧ v + blo ≤ j + 1.

(** The ranges still to be searched are well-formed. *)
Definition range_ok (q : nat * nat * nat * nat) : Prop :=
  let '(alo, ahi, blo, bhi) := q in alo ≤ ahi ∧ blo ≤ bhi.

(** The work left in a queue: a range costs one turn, and two more for each
    element of [a] in it. *)
Definition queue_weight (queue : list (nat * nat * nat * nat)) : nat :=
  sum_list ((λ '(alo, ahi, _, _), 2 * (ahi - alo) + 1) <$> queue).

(** The indices, counted from [k], at which [x] occurs in [l]. *)
Fixpoint positions_from (k : nat) (x : Ascii.ascii) (l : list Ascii.ascii) : list nat :=
  match l with
  | [] => []
  | y :: l' => (if decide (y = x) then [k] else []) ++ positions_from (S k) x l'
  end.

(** The element at [i] is one that [b2j] keeps: it is not popular. *)
Definition kept (a : list Ascii.ascii) (i : nat) : bool :=
  from_option (λ x, bool_decide (is_Some (Difflib.chain_b a !! x))) false (a !! i).

(** The number of kept elements in a row just before the index [i]. *)
Fixpoint run (a : list Ascii.ascii) (i : nat) : nat :=
  match i with
  | 0 => 0
  | S i' => if kept a i' then S (run a i') else 0
  end.

(** The state of the main loop of [find_longest_match] before the row [i],
    when a sequence is matched with itself: the best block is on the
    diagonal and at least as long as every run so far, and no length in
    [j2len] exceeds the run it ends. *)
Definition row_inv (a : list Ascii.ascii) (i : nat)
    (st : gmap nat nat * Difflib.block) : Prop :=
  let '(j2len, (besti, bestj, bestsize)) := st in
  besti = bestj ∧ besti + bestsize ≤ i
  ∧ (∀ i', i' ≤ i → run a i' ≤ bestsize)
  ∧ (∀ j, Difflib.j2lenget j2len j ≤ run a i ∧ Difflib.j2lenget j2len j ≤ run a j)
  ∧ Difflib.j2lenget j2len i = run a i.

(** ** Inputs for the scenarios *)

(** An item with a blank paragraph and a table. *)
Definition blank_with_table : list (string * json) :=
  [("table", table_data [["X"]]);
   ("paragraph", JObj [("elements", JArr [text_run "  "; JObj []; text_run " "])])].

Definition str (s : string) : list Ascii.ascii := String.list_ascii_of_string s.

(** ** Cells in the wire format *)

(** An entry of the content of a cell, [{ paragraph?: { elements: [...] } }]. *)
Definition wf_content (content : json) : bool :=
  match content with
  | JObj c =>
      match Py.assoc "paragraph" c with
      | None => true
      | Some (JObj paragraph) =>
          match Py.assoc "elements" paragraph with
          | None => true
          | Some (JArr elements) => forallb wf_element elements
          | Some _ => false
          end
      | Some _ => false
      end
  | _ => false
  end.

(** The text of the paragraph of a content entry, if it has one. *)
Definition content_text (content : json) : string :=
  match content with
  | JObj c =>
      match Py.assoc "paragraph" c with
      | Some (JObj paragraph) => paragraph_text (elements_of paragraph)
      | _ => EmptyString
      end
  | _ => EmptyString
  end.

(** A cell, [{ content?: [...] }]. *)
Definition wf_cell (cell : json) : bool :=
  match cell with
  | JObj c =>
      match Py.assoc "content" c with
      | None => true
      | Some (JArr contents) => forallb wf_content contents
      | Some _ => false
      end
  | _ => false
  end.

Definition cell_contents (cell : json) : list json :=
  match cell with
  | JObj c =>
      match Py.assoc "content" c with
      | Some (JArr contents) => contents
      | _ => []
      end
  | _ => []
  end.

(** A record of the table comparator with removed and added exchanged. *)
Definition mirror (d : table_diff) : table_diff :=
  match d with
  | StructureDiff message => StructureDiff message
  | CellDiff type text loc =>
      CellDiff (if String.eqb type "removed" then "added" else "removed") text loc
  end.

(** The record [d] is about a cell that both tables have, with different
    texts, and carries the text of its side. *)
Definition cell_diff_sound (rows1 rows2 : list (list string)) (d : table_diff) : Prop :=
  match d with
  | StructureDiff _ => True
  | CellDiff type text loc =>
      ∃ row1 row2 text1 text2,
        rows1 !! row loc = Some row1 ∧ rows2 !! row loc = Some row2
        ∧ row1 !! cell loc = Some text1 ∧ row2 !! cell loc = Some text2
        ∧ text1 ≠ text2 ∧ text ≠ EmptyString
        ∧ (type = "removed" ∧ text = text1 ∨ type = "added" ∧ text = text2)
  end.

(** ** Sequences of elements *)

(** The table of a normalized element, if it is one, can be read. *)
Definition readable (o : option processed) : Prop :=
  match o with
  | Some (Table data _) => ∃ rows, table_texts data = Ok rows
  | _ => True
  end.

(** The elements among what [extract_text_from_item] returned. *)
Definition kept_elements (outputs : list (option processed)) : list processed :=
  omap id outputs.

(** ** Spans and blocks *)

(** A block ends inside both sequences. *)
Definition block_bounded (la lb : nat) (x : Difflib.block) : Prop :=
  let '(i, j, k) := x in i + k ≤ la ∧ j + k ≤ lb.

(** A range of the queue lies inside both sequences. *)
Definition range_in (la lb : nat) (q : nat * nat * nat * nat) : Prop :=
  let '(alo, ahi, blo, bhi) := q in alo ≤ ahi ≤ la ∧ blo ≤ bhi ≤ lb.

(** The side an opcode changes is a range that is not empty and ends
    inside its sequence. *)
Definition opcode_bounded (la lb : nat) (o : Difflib.opcode) : Prop :=
  match Difflib.op o with
  | Difflib.Replace =>
      Difflib.i1 o < Difflib.i2 o ≤ la ∧ Difflib.j1 o < Difflib.j2 o ≤ lb
  | Difflib.Delete => Difflib.i1 o < Difflib.i2 o ≤ la
  | Difflib.Insert => Difflib.j1 o < Difflib.j2 o ≤ lb
  | Difflib.Equal => True
  end.

(** A record of [compare_text_content old new]: a removed span of [old] or
    an added span of [new], whose range is not empty and lies in the text,
    with the slice at the range as its text. *)
Definition span_ok (old new : string) (sp : span) : Prop :=
  let '(lo, hi) := sp_range sp in
  lo < hi ∧ String.length (sp_text sp) = hi - lo
  ∧ sp_text sp = Py.slice (sp_full_text sp) lo hi
  ∧ (sp_type sp = "removed" ∧ sp_full_text sp = old ∧ hi ≤ String.length old
     ∨ sp_type sp = "added" ∧ sp_full_text sp = new ∧ hi ≤ String.length new).

(** ** Sequences of paragraphs *)

Definition is_paragraph (p : processed) : Prop :=
  match p with
  | Paragraph _ _ _ => True
  | Table _ _ => False
  end.

Definition text_of (p : processed) : string :=
  match p with
  | Paragraph text _ _ => text
  | Table _ _ => EmptyString
  end.

(** What the first pass reports on the paragraph [p1] of [content1] when
    [p0] is the first paragraph of [content2]. *)
Definition first_match_records (p0 p1 : processed) : list diff_record :=
  if decide (text_of p1 = text_of p0) then [] else [removed p1; added p0].

(** ** The request handler: [compare_syllabi] *)

(** What the handler reads of the request: [request.method] and
    [request.json], the decoded body; [req_json] is [None] when reading
    [request.json] raises, as it does on a body that is not JSON. *)
Record request : Type := { req_method : string; req_json : option json }.

(** The bodies the handler answers with: [''], [jsonify({"diffs": diffs})],
    [jsonify({"error": message})] with the fixed message of the 400 branch,
    and [jsonify({"error": str(e)})] for the exception [e] caught, which is
    [None] for the exception of [request.json]. *)
Inductive response_body : Type :=
| EmptyBody
| DiffsBody (diffs : list diff_record)
| ErrorBody (error : string)
| ExceptionBody (e : option exn).

(** The body of the [try]: the two [len] are those of the message the
    handler prints before it looks at the contents; [diff_content] gets what
    its loops visit in [content1] and [content2], which both have a [len]
    at that point and so can be visited. *)
Definition compare_body (data : json) : result (response_body * nat) :=
  content1 ← Py.get_default data "content1" (JArr []);
  content2 ← Py.get_default data "content2" (JArr []);
  _ ← Py.len content1;
  _ ← Py.len content2;
  if negb (Py.truthy content1) || negb (Py.truthy content2) then
    Ok (ErrorBody "Both content1 and content2 are required", 400)
  else
    items1 ← Py.iter content1;
    items2 ← Py.iter content2;
    diffs ← diff_content items1 items2;
    Ok (DiffsBody diffs, 200).

(** The route accepts [POST] and [OPTIONS] only, so that a method other
    than [OPTIONS] is [POST]. *)
Definition compare_syllabi (r : request) : response_body * nat :=
  if String.eqb (req_method r) "OPTIONS" then (EmptyBody, 200)
  else
    match req_json r with
    | None => (ExceptionBody None, 500)
    | Some data =>
        match compare_body data with
        | Ok response => response
        | Raise e => (ExceptionBody (Some e), 500)
        end
    end.

(** [POST] with the body [data]. *)
Definition post (data : json) : request :=
  {| req_method := "POST"; req_json := Some data |}.

(** ** The scenarios of the specification, evaluated *)

Example extract_hello :
  extract_text_from_item (paragraph_item ["  Hel"; "lo "]) =
  Ok (Some (Paragraph "Hello" (JStr "NORMAL_TEXT") (paragraph_item ["  Hel"; "lo "]))).
Proof. reflexivity. Qed.

Example extract_blank : extract_text_from_item (paragraph_item [" "; ""]) = Ok None.
Proof. reflexivity. Qed.

Example extract_number : extract_text_from_item (JNum 3) = Raise TypeError.
Proof. reflexivity. Qed.

Example scenario1 :
  diff_content [paragraph_item ["Hello"]] [paragraph_item ["Hello"]] = Ok [].
Proof. reflexivity. Qed.

Example scenario4 :
  diff_content [paragraph_item ["A"]] [paragraph_item ["A"]; paragraph_item ["B"]]
  = Ok [added (plain "B")].
Proof. reflexivity. Qed.

Example scenario5_tables :
  compare_tables (table_data [["X"]]) (table_data [["Y"]])
  = Ok [CellDiff "removed" "X" {| row := 0; cell := 0 |};
        CellDiff "added" "Y" {| row := 0; cell := 0 |}].
Proof. reflexivity. Qed.

Example cells_differ :
  compare_tables (table_data [["X"]; ["a"; "b"]]) (table_data [["X"]; ["a"]])
  = Ok [StructureDiff "Different number of cells in row 1"].
Proof. reflexivity. Qed.

(** The examples of the library's docstrings. *)
Example docstring_find_longest_match :
  Difflib.find_longest_match (str " abcd") (str "abcd abcd") 0 5 0 9 = (0, 4, 5).
Proof. vm_compute. reflexivity. Qed.

Example docstring_no_match :
  Difflib.find_longest_match (str "ab") (str "c") 0 2 0 1 = (0, 0, 0).
Proof. vm_compute. reflexivity. Qed.

Example docstring_matching_blocks :
  Difflib.get_matching_blocks (str "abxcd") (str "abcd")
  = Some [(0, 0, 2); (3, 2, 2); (5, 4, 0)].
Proof. vm_compute. reflexivity. Qed.

Example docstring_opcodes :
  Difflib.get_opcodes (str "qabxcd") (str "abycdf")
  = Some [Difflib.Build_opcode Difflib.Delete 0 1 0 0;
          Difflib.Build_opcode Difflib.Equal 1 3 0 2;
          Difflib.Build_opcode Difflib.Replace 3 4 2 3;
          Difflib.Build_opcode Difflib.Equal 4 6 3 5;
          Difflib.Build_opcode Difflib.Insert 6 6 5 6].
Proof. vm_compute. reflexivity. Qed.

Example compare_text_example :
  compare_text_content "qabxcd" "abycdf"
  = Some [ {| sp_type := "removed"; sp_text := "q"; sp_full_text := "qabxcd"; sp_range := (0, 1) |};
           {| sp_type := "removed"; sp_text := "x"; sp_full_text := "qabxcd"; sp_range := (3, 4) |};
           {| sp_type := "added"; sp_text := "y"; sp_full_text := "abycdf"; sp_range := (2, 3) |};
           {| sp_type := "added"; sp_text := "f"; sp_full_text := "abycdf"; sp_range := (5, 6) |} ].
Proof. vm_compute. reflexivity. Qed.

(** ** Evaluation of the error monad and of the loops *)

Lemma bind_Ok {A B : Type} (f : A → result B) (a : A) : (Ok a ≫= f) = f a.
Proof. reflexivity. Qed.

Lemma bind_Ok_inv {A B : Type} (f : A → result B) (m : result A) (b : B) :
  (m ≫= f) = Ok b → ∃ a, m = Ok a ∧ f a = Ok b.
Proof. destruct m as [a|e]; [eauto | discriminate]. Qed.

Lemma for_each_cons {A S : Type} (x : A) (xs : list A) (s : S)
    (body : S → A → result S) :
  for_each (x :: xs) s body = (s' ← body s x; for_each xs s' body).
Proof. reflexivity. Qed.

(** An invariant of the state of a loop holds when the loop is left. *)
Lemma for_each_invariant {A S : Type} (P : S → Prop) (xs : list A) (s s' : S)
    (body : S → A → result S) :
  (∀ s x s', P s → body s x = Ok s' → P s') →
  P s → for_each xs s body = Ok s' → P s'.
Proof.
  intros Hstep. revert s; induction xs as [|x xs IH]; intros s Hs H; simpl in H.
  - by inversion H; subst.
  - apply bind_Ok_inv in H as (s1 & H1 & H2). eauto.
Qed.

(** Run the code as far as the known dict entries allow. *)
Ltac py_eval :=
  repeat (progress simpl
          || match goal with H : Py.assoc _ _ = _ |- _ => rewrite H end).

(** ** The element normalizer *)

Lemma append_empty_r (s : string) : s +:+ "" = s.
Proof.
  induction s as [|c s IH]; [reflexivity|].
  change (String c (s +:+ "") = String c s). by rewrite IH.
Qed.

Lemma append_empty_l (s : string) : "" +:+ s = s.
Proof. reflexivity. Qed.

Lemma append_assoc (s1 s2 s3 : string) : (s1 +:+ s2) +:+ s3 = s1 +:+ (s2 +:+ s3).
Proof.
  induction s1 as [|c s1 IH]; [reflexivity|].
  change (String c ((s1 +:+ s2) +:+ s3) = String c (s1 +:+ (s2 +:+ s3))).
  by rewrite IH.
Qed.

Lemma concat_empty_cons (s : string) (l : list string) :
  String.concat "" (s :: l) = s +:+ String.concat "" l.
Proof.
  destruct l as [|s' l]; [|reflexivity].
  change (s = s +:+ ""). by rewrite append_empty_r.
Qed.

Lemma contains_dict (k : string) (m : list (string * json)) :
  Py.contains k (JObj m) = Ok (bool_decide (is_Some (Py.assoc k m))).
Proof. reflexivity. Qed.

(** One turn of the loop over the elements of a well-formed paragraph adds
    the content of the element's text run, if it has one. *)
Lemma add_text_run_wf (text : string) (element : json) :
  wf_element element →
  add_text_run text element = Ok (text +:+ from_option id "" (run_content element)).
Proof.
  destruct element as [| | | |l|e]; simpl; try done.
  unfold add_text_run. rewrite contains_dict. simpl.
  destruct (Py.assoc "textRun" e) as [[| | | | |run]|] eqn:Hrun; simpl; try done.
  - destruct (Py.assoc "content" run) as [[| | |s| |]|]; simpl; done.
  - intros _. by rewrite append_empty_r.
Qed.

Lemma for_each_add_text_run (elements : list json) (text : string) :
  forallb wf_element elements →
  for_each elements text add_text_run = Ok (text +:+ paragraph_text elements).
Proof.
  revert text; induction elements as [|element elements IH]; intros text Hwf.
  - simpl. by rewrite append_empty_r.
  - simpl in Hwf. apply andb_prop_elim in Hwf as [Hel Hels].
    simpl. rewrite add_text_run_wf by done. simpl. rewrite IH by done.
    f_equal. rewrite append_assoc. f_equal.
    unfold paragraph_text. simpl.
    destruct (run_content element) as [s|]; [by rewrite concat_empty_cons | done].
Qed.

Lemma eqb_empty_decide (s : string) :
  negb (String.eqb s "") = (if decide (s = "") then false else true).
Proof.
  destruct (decide (s = "")) as [->|Hne]; [reflexivity|].
  by apply negb_true_iff, String.eqb_neq.
Qed.

(** C8.  On every well-formed document item [extract_text_from_item] is the
    [normalize] of the specification: an item with a paragraph yields the
    paragraph of the trimmed concatenation of its text runs in document
    order, with the style [namedStyleType] or ["NORMAL_TEXT"], and nothing
    when the trimmed text is empty; an item with neither a paragraph nor a
    table yields nothing. *)
Theorem extract_text_from_item_normalize (item : json) :
  wf_item item → extract_text_from_item item = Ok (normalize item).
Proof.
  destruct item as [| | | | |m]; try done.
  unfold extract_text_from_item, wf_item, normalize.
  destruct (Py.assoc "paragraph" m) as [[| | | | |paragraph]|] eqn:Hp; try done.
  - unfold wf_paragraph, elements_of. intros [Hels Hstyle]%andb_prop_elim.
    py_eval.
    destruct (Py.assoc "elements" paragraph) as [[| | | |elements|]|] eqn:He;
      try done.
    py_eval. rewrite for_each_add_text_run by done. simpl.
    rewrite append_empty_l, eqb_empty_decide.
    destruct (decide (Py.strip (paragraph_text elements) = "")); [done|].
    unfold named_style.
    by destruct (Py.assoc "paragraphStyle" paragraph) as [[| | | | |style]|].
  - intros _. py_eval.
    destruct (Py.assoc "table" m) as [table|] eqn:Ht; by py_eval.
Qed.

(** The claim's cases, read off [normalize]. *)
Lemma extract_text_from_item_normalize_witness :
  wf_item (paragraph_item [" Hel"; "lo"]) ∧
  extract_text_from_item (paragraph_item [" Hel"; "lo"])
  = Ok (Some (Paragraph "Hello" (JStr "NORMAL_TEXT") (paragraph_item [" Hel"; "lo"]))).
Proof.
  split; [done|].
  by rewrite (extract_text_from_item_normalize (paragraph_item [" Hel"; "lo"])).
Defined.

(** C9.  An item whose paragraph has no ["elements"], or whose text runs
    make up only white space, yields nothing, whatever else the item
    holds: a ["table"] entry of the same item is never looked at. *)
Theorem paragraph_shadows_table (m : list (string * json)) (paragraph : json) :
  Py.assoc "paragraph" m = Some paragraph →
  (Py.contains "elements" paragraph = Ok false
   ∨ ∃ p elements,
       paragraph = JObj p ∧ Py.assoc "elements" p = Some (JArr elements)
       ∧ forallb wf_element elements
       ∧ Py.strip (paragraph_text elements) = "") →
  extract_text_from_item (JObj m) = Ok None.
Proof.
  intros Hp Hblank. unfold extract_text_from_item. py_eval.
  destruct Hblank as [->|(p & elements & -> & He & Hwf & Hstrip)]; [done|].
  py_eval. rewrite for_each_add_text_run by done. simpl.
  by rewrite append_empty_l, Hstrip.
Qed.

Lemma paragraph_shadows_table_witness :
  is_Some (Py.assoc "table" blank_with_table) ∧
  extract_text_from_item (JObj blank_with_table) = Ok None.
Proof.
  split; [by eexists|].
  apply (paragraph_shadows_table blank_with_table
           (JObj [("elements", JArr [text_run "  "; JObj []; text_run " "])])).
  - reflexivity.
  - right. eexists _, _. repeat split; reflexivity.
Defined.

(** ** The table comparator *)

Lemma map_result_length {A B : Type} (f : A → result B) (xs : list A) (ys : list B) :
  map_result f xs = Ok ys → length ys = length xs.
Proof.
  revert ys; induction xs as [|x xs IH]; intros ys H; simpl in H.
  - by inversion H.
  - apply bind_Ok_inv in H as (y & Hy & H).
    apply bind_Ok_inv in H as (ys' & Hys & H). inversion H; subst.
    simpl. f_equal. by apply IH.
Qed.

Lemma chars_length (s : string) : length (Py.chars s) = String.length s.
Proof.
  unfold Py.chars. rewrite length_fmap.
  induction s as [|c s IH]; simpl; congruence.
Qed.

(** [len] counts what a loop visits. *)
Lemma iter_len (x : json) (l : list json) :
  Py.iter x = Ok l → Py.len x = Ok (length l).
Proof.
  destruct x as [| | |s|l'|m]; simpl; intros H; inversion H; subst; f_equal.
  - by rewrite chars_length.
  - by rewrite !length_fmap.
Qed.

(** A loop over [enumerate(zip(xs1, xs2))] whose body appends, for the
    index [i] and the pair at it, the records [f i] makes of what [g] reads
    off the two. *)
Lemma for_each_enumerate_zip {A B D : Type} (g : A → result B)
    (body : list D → nat * (A * A) → result (list D)) (f : nat → B → B → list D) :
  (∀ diffs i x1 x2 y1 y2,
     g x1 = Ok y1 → g x2 = Ok y2 → body diffs (i, (x1, x2)) = Ok (diffs ++ f i y1 y2)) →
  ∀ xs1 xs2 ys1 ys2 k diffs,
    map_result g xs1 = Ok ys1 → map_result g xs2 = Ok ys2 →
    for_each (zip (seq k (length (zip xs1 xs2))) (zip xs1 xs2)) diffs body
    = Ok (diffs ++ concat (imap (λ i '(y1, y2), f (k + i) y1 y2) (zip ys1 ys2))).
Proof.
  intros Hbody. induction xs1 as [|x1 xs1 IH]; intros xs2 ys1 ys2 k diffs H1 H2.
  - simpl in H1. inversion H1; subst. simpl. by rewrite app_nil_r.
  - simpl in H1. apply bind_Ok_inv in H1 as (y1 & Hy1 & H1).
    apply bind_Ok_inv in H1 as (ys1' & Hys1 & H1). inversion H1; subst.
    destruct xs2 as [|x2 xs2].
    + simpl in H2. inversion H2; subst. simpl. by rewrite app_nil_r.
    + simpl in H2. apply bind_Ok_inv in H2 as (y2 & Hy2 & H2).
      apply bind_Ok_inv in H2 as (ys2' & Hys2 & H2). inversion H2; subst.
      simpl. rewrite (Hbody _ _ _ _ _ _ Hy1 Hy2). simpl.
      rewrite (IH xs2 ys1' ys2' (S k) _ Hys1 Hys2).
      rewrite Nat.add_0_r, <- app_assoc. do 4 f_equal.
      apply imap_ext. intros i [??] _. simpl. f_equal. lia.
Qed.

Lemma compare_cells_records (r : nat) (diffs : list table_diff) (c : nat)
    (cell1 cell2 : json) (text1 text2 : string) :
  cell_text cell1 = Ok text1 → cell_text cell2 = Ok text2 →
  compare_cells r diffs (c, (cell1, cell2)) = Ok (diffs ++ cell_records r c text1 text2).
Proof.
  intros H1 H2. unfold compare_cells, cell_records. rewrite H1, H2. simpl.
  destruct (decide (text1 = text2)) as [->|Hne].
  - rewrite String.eqb_refl. simpl. by rewrite app_nil_r.
  - apply String.eqb_neq in Hne as ->. simpl.
    rewrite !eqb_empty_decide.
    destruct (decide (text1 = "")), (decide (text2 = "")); simpl;
      by rewrite <- ?app_assoc, ?app_nil_r.
Qed.

Lemma compare_rows_records (diffs : list table_diff) (r : nat) (row1 row2 : json)
    (texts1 texts2 : list string) :
  row_texts row1 = Ok texts1 → row_texts row2 = Ok texts2 →
  compare_rows diffs (r, (row1, row2)) = Ok (diffs ++ row_records r texts1 texts2).
Proof.
  unfold row_texts. intros H1 H2.
  apply bind_Ok_inv in H1 as (cells1 & Hc1 & H1).
  apply bind_Ok_inv in H2 as (cells2 & Hc2 & H2).
  apply bind_Ok_inv in Hc1 as (c1 & Hg1 & Hi1).
  apply bind_Ok_inv in Hc2 as (c2 & Hg2 & Hi2).
  unfold compare_rows, row_records. rewrite Hg1, Hg2. simpl.
  rewrite (iter_len _ _ Hi1), (iter_len _ _ Hi2), Hi1, Hi2. simpl.
  rewrite (map_result_length _ _ _ H1), (map_result_length _ _ _ H2).
  destruct (decide (length cells1 = length cells2)) as [Heq|Hne].
  - rewrite Heq, Nat.eqb_refl. simpl. unfold enumerate.
    by rewrite (for_each_enumerate_zip cell_text (compare_cells r) (cell_records r)
                  (compare_cells_records r) cells1 cells2 texts1 texts2 0 diffs H1 H2).
  - apply Nat.eqb_neq in Hne as ->. done.
Qed.

(** On two tables whose cells can be read, [compare_tables] is the
    comparison of section 4.3 on the texts of the cells. *)
Lemma compare_tables_grids (table1 table2 : json) (rows1 rows2 : list (list string)) :
  table_texts table1 = Ok rows1 → table_texts table2 = Ok rows2 →
  compare_tables table1 table2 = Ok (compare_grids rows1 rows2).
Proof.
  unfold table_texts. intros H1 H2.
  apply bind_Ok_inv in H1 as (rs1 & Hr1 & H1).
  apply bind_Ok_inv in H2 as (rs2 & Hr2 & H2).
  apply bind_Ok_inv in Hr1 as (r1 & Hg1 & Hi1).
  apply bind_Ok_inv in Hr2 as (r2 & Hg2 & Hi2).
  unfold compare_tables, compare_grids. rewrite Hg1, Hg2. simpl.
  rewrite (iter_len _ _ Hi1), (iter_len _ _ Hi2), Hi1, Hi2. simpl.
  rewrite (map_result_length _ _ _ H1), (map_result_length _ _ _ H2).
  destruct (decide (length rs1 = length rs2)) as [Heq|Hne].
  - rewrite Heq, Nat.eqb_refl. simpl. unfold enumerate.
    by rewrite (for_each_enumerate_zip row_texts compare_rows row_records
                  compare_rows_records rs1 rs2 rows1 rows2 0 [] H1 H2).
  - apply Nat.eqb_neq in Hne as ->. done.
Qed.

(** Every grid of texts is the reading of a table in the wire format. *)
Lemma cell_text_cell_item (s : string) : cell_text (cell_item s) = Ok s.
Proof. reflexivity. Qed.

Lemma map_result_fmap {A B : Type} (g : A → result B) (h : B → A) (ys : list B) :
  (∀ y, g (h y) = Ok y) → map_result g (h <$> ys) = Ok ys.
Proof.
  intros Hgh. induction ys as [|y ys IH]; [reflexivity|].
  rewrite fmap_cons. simpl. rewrite Hgh. simpl. by rewrite IH.
Qed.

Lemma row_texts_row_item (texts : list string) : row_texts (row_item texts) = Ok texts.
Proof. apply (map_result_fmap cell_text cell_item), cell_text_cell_item. Qed.

Lemma table_texts_table_data (rows : list (list string)) :
  table_texts (table_data rows) = Ok rows.
Proof. apply (map_result_fmap row_texts row_item), row_texts_row_item. Qed.

Lemma cell_records_not_structure (r c : nat) (text1 text2 : string) :
  Forall (λ d, is_structure d = false) (cell_records r c text1 text2).
Proof.
  unfold cell_records.
  destruct (decide (text1 = text2)), (decide (text1 = "")), (decide (text2 = ""));
    simpl; repeat constructor.
Qed.

Lemma row_records_same_length (r : nat) (row1 row2 : list string) :
  length row1 = length row2 →
  Forall (λ d, is_structure d = false) (row_records r row1 row2).
Proof.
  intros Hlen. unfold row_records. rewrite decide_True by done.
  generalize (zip row1 row2). intros l.
  apply Forall_concat, Forall_forall. intros ds Hds.
  apply elem_of_lookup_imap in Hds as (c & [x1 x2] & -> & _).
  apply cell_records_not_structure.
Qed.

Lemma rows_same_shape (rows1 rows2 : list (list string)) (k : nat) :
  same_shape rows1 rows2 →
  Forall (λ d, is_structure d = false)
    (concat (imap (λ r '(row1, row2), row_records (k + r) row1 row2) (zip rows1 rows2))).
Proof.
  intros Hshape. revert k.
  induction Hshape as [|row1 row2 rows1 rows2 Hlen _ IH]; intros k; simpl.
  - constructor.
  - apply Forall_app. split; [by apply row_records_same_length|].
    rewrite (imap_ext _ (λ r '(row1, row2), row_records (S k + r) row1 row2)).
    + apply IH.
    + intros i [??] _. simpl. f_equal. lia.
Qed.

Lemma rows_other_shape (rows1 rows2 : list (list string)) (k : nat) :
  length rows1 = length rows2 → ¬ same_shape rows1 rows2 →
  Exists (λ d, is_structure d = true)
    (concat (imap (λ r '(row1, row2), row_records (k + r) row1 row2) (zip rows1 rows2))).
Proof.
  revert rows2 k. induction rows1 as [|row1 rows1 IH]; intros [|row2 rows2] k Hlen Hshape;
    simpl in Hlen; try done.
  - destruct Hshape. constructor.
  - simpl. apply Exists_app.
    destruct (decide (length row1 = length row2)) as [Heq|Hne].
    + right.
      rewrite (imap_ext _ (λ r '(row1, row2), row_records (S k + r) row1 row2)).
      * apply IH; [lia|]. intros Htail. apply Hshape. by constructor.
      * intros i [??] _. simpl. f_equal. lia.
    + left. unfold row_records. rewrite decide_False by done. by left.
Qed.

(** C4.  When the numbers of rows differ, [compare_tables] returns the one
    structure record "Different number of rows" without looking at any
    row, whatever the rows are; and on two tables whose cells can be read it
    returns a structure record exactly when the shapes differ: none when the
    tables have as many rows and row by row as many cells, one otherwise. *)
Theorem compare_tables_structure :
  (∀ table1 table2 rows1 rows2 len1 len2,
     Py.getitem table1 "tableRows" = Ok rows1 → Py.len rows1 = Ok len1 →
     Py.getitem table2 "tableRows" = Ok rows2 → Py.len rows2 = Ok len2 →
     len1 ≠ len2 →
     compare_tables table1 table2 = Ok [StructureDiff "Different number of rows"])
  ∧ (∀ table1 table2 rows1 rows2,
       table_texts table1 = Ok rows1 → table_texts table2 = Ok rows2 →
       ∃ diffs, compare_tables table1 table2 = Ok diffs
                ∧ (same_shape rows1 rows2 → Forall (λ d, is_structure d = false) diffs)
                ∧ (¬ same_shape rows1 rows2 → Exists (λ d, is_structure d = true) diffs)).
Proof.
  split.
  - intros table1 table2 rows1 rows2 len1 len2 Hg1 Hl1 Hg2 Hl2 Hne.
    unfold compare_tables. rewrite Hg1, Hg2. simpl. rewrite Hl1, Hl2. simpl.
    by apply Nat.eqb_neq in Hne as ->.
  - intros table1 table2 rows1 rows2 H1 H2.
    exists (compare_grids rows1 rows2). split; [by apply compare_tables_grids|].
    unfold compare_grids. split.
    + intros Hshape. rewrite decide_True by (by eapply Forall2_length).
      apply (rows_same_shape rows1 rows2 0 Hshape).
    + intros Hshape. destruct (decide (length rows1 = length rows2)) as [Heq|Hne].
      * apply (rows_other_shape rows1 rows2 0 Heq Hshape).
      * by left.
Qed.

Lemma compare_tables_structure_witness :
  compare_tables (JObj [("tableRows", JArr [JNull; JNum 7])])
                 (JObj [("tableRows", JArr [JNull])])
  = Ok [StructureDiff "Different number of rows"]
  ∧ ∃ diffs,
      compare_tables (table_data [["a"; "b"]; ["c"]]) (table_data [["a"; "x"]; [""]])
      = Ok diffs
      ∧ Forall (λ d, is_structure d = false) diffs.
Proof.
  destruct compare_tables_structure as [Hrows Hshape]. split.
  - apply (Hrows _ _ (JArr [JNull; JNum 7]) (JArr [JNull]) 2 1);
      [reflexivity | reflexivity | reflexivity | reflexivity | lia].
  - destruct (Hshape (table_data [["a"; "b"]; ["c"]]) (table_data [["a"; "x"]; [""]])
                [["a"; "b"]; ["c"]] [["a"; "x"]; [""]])
      as (diffs & Hd & Hsame & _); [reflexivity | reflexivity |].
    exists diffs. split; [exact Hd|]. apply Hsame.
    repeat constructor.
Defined.

(** C5.  On two tables of the same shape whose cells can be read,
    [compare_tables] returns, row by row and cell by cell in order, the
    records of each cell position: none when the two texts are equal;
    otherwise a removed record with the first text exactly when that text is
    not empty, then an added record with the second text exactly when that
    one is not empty, each with the row and the cell index. *)
Theorem compare_tables_cells :
  (∀ table1 table2 rows1 rows2,
     table_texts table1 = Ok rows1 → table_texts table2 = Ok rows2 →
     same_shape rows1 rows2 →
     compare_tables table1 table2
     = Ok (concat (imap (λ r '(row1, row2),
                           concat (imap (λ c '(text1, text2), cell_records r c text1 text2)
                                        (zip row1 row2)))
                        (zip rows1 rows2))))
  ∧ (∀ r c text, cell_records r c text text = [])
  ∧ (∀ r c text1 text2, text1 ≠ text2 →
       cell_records r c text1 text2
       = (if decide (text1 = "") then []
          else [CellDiff "removed" text1 {| row := r; cell := c |}])
         ++ (if decide (text2 = "") then []
             else [CellDiff "added" text2 {| row := r; cell := c |}])).
Proof.
  split; [|split].
  - intros table1 table2 rows1 rows2 H1 H2 Hshape.
    rewrite (compare_tables_grids _ _ _ _ H1 H2). unfold compare_grids.
    rewrite decide_True by (by eapply Forall2_length). do 2 f_equal.
    apply imap_ext. intros r [row1 row2] Hr.
    apply lookup_zip_with_Some in Hr as (x & y & [= <- <-] & Hx & Hy).
    unfold row_records. rewrite decide_True; [done|].
    by apply (Forall2_lookup_lr _ _ _ _ _ _ Hshape Hx Hy).
  - intros r c text. unfold cell_records. by rewrite decide_True.
  - intros r c text1 text2 Hne. unfold cell_records. by rewrite decide_False.
Qed.

Lemma compare_tables_cells_witness :
  compare_tables (table_data [["X"; "same"]; [""; "gone"]])
                 (table_data [["Y"; "same"]; ["new"; ""]])
  = Ok [CellDiff "removed" "X" {| row := 0; cell := 0 |};
        CellDiff "added" "Y" {| row := 0; cell := 0 |};
        CellDiff "added" "new" {| row := 1; cell := 0 |};
        CellDiff "removed" "gone" {| row := 1; cell := 1 |}].
Proof.
  destruct compare_tables_cells as [Hcells _].
  rewrite (Hcells _ _ [["X"; "same"]; [""; "gone"]] [["Y"; "same"]; ["new"; ""]]).
  - reflexivity.
  - reflexivity.
  - reflexivity.
  - repeat constructor.
Defined.

(** ** The kinds of record *)

Lemma compare_cells_kinds (r : nat) (diffs diffs' : list table_diff)
    (c : nat * (json * json)) :
  kinds_ok diffs → compare_cells r diffs c = Ok diffs' → kinds_ok diffs'.
Proof.
  destruct c as [cell_idx [cell1 cell2]]. unfold compare_cells, kinds_ok.
  intros Hok H.
  apply bind_Ok_inv in H as (text1 & _ & H).
  apply bind_Ok_inv in H as (text2 & _ & H).
  destruct (negb (text1 =? text2)%string); [|by inversion H; subst].
  assert (∀ type text loc, record_kind type →
            Forall (λ d, record_kind (table_diff_type d)) [CellDiff type text loc])
    as Hone by (intros; by apply Forall_singleton).
  destruct (negb (text1 =? "")%string), (negb (text2 =? "")%string);
    inversion H; subst; repeat (apply Forall_app; split); try done;
    apply Hone; unfold record_kind; auto.
Qed.

Lemma compare_rows_kinds (diffs diffs' : list table_diff) (r : nat * (json * json)) :
  kinds_ok diffs → compare_rows diffs r = Ok diffs' → kinds_ok diffs'.
Proof.
  destruct r as [row_idx [row1 row2]]. unfold compare_rows. intros Hok H.
  apply bind_Ok_inv in H as (len1 & _ & H).
  apply bind_Ok_inv in H as (len2 & _ & H).
  destruct (negb (len1 =? len2)).
  - inversion H; subst. apply Forall_app. split; [done|].
    apply Forall_singleton. unfold record_kind. simpl. auto.
  - apply bind_Ok_inv in H as (cells1 & _ & H).
    apply bind_Ok_inv in H as (cells2 & _ & H).
    revert H. apply for_each_invariant; [|done].
    intros s x s'. apply compare_cells_kinds.
Qed.

(** The table comparator emits structure, removed and added records only. *)
Lemma compare_tables_kinds (table1 table2 : json) (diffs : list table_diff) :
  compare_tables table1 table2 = Ok diffs → kinds_ok diffs.
Proof.
  unfold compare_tables. intros H.
  apply bind_Ok_inv in H as (len1 & _ & H).
  apply bind_Ok_inv in H as (len2 & _ & H).
  destruct (negb (len1 =? len2)).
  - inversion H; subst. apply Forall_singleton. unfold record_kind. simpl. auto.
  - apply bind_Ok_inv in H as (rows1 & _ & H).
    apply bind_Ok_inv in H as (rows2 & _ & H).
    revert H. apply for_each_invariant; [|constructor].
    intros s x s'. apply compare_rows_kinds.
Qed.

Lemma wrap_table_diffs_kinds (processed1 processed2 : processed)
    (table_diffs : list table_diff) :
  kinds_ok table_diffs →
  records_ok (wrap_table_diffs processed1 processed2 table_diffs).
Proof.
  unfold kinds_ok, records_ok, wrap_table_diffs. intros H.
  apply Forall_fmap. by eapply Forall_impl.
Qed.

Lemma find_match_kinds (processed1 : processed) (content2 : list json)
    (diffs diffs' : list diff_record) (found : bool) :
  records_ok diffs → find_match processed1 content2 diffs = Ok (found, diffs') →
  records_ok diffs'.
Proof.
  intros Hok. induction content2 as [|item2 content2 IH]; simpl; intros H.
  - by inversion H; subst.
  - apply bind_Ok_inv in H as ([processed2|] & _ & H); [|by apply IH].
    destruct processed1 as [text1 ? ?|data1 ?], processed2 as [text2 ? ?|data2 ?];
      try by apply IH.
    + inversion H; subst.
      destruct (negb (text1 =? text2)%string); [|done].
      apply Forall_app. split; [done|].
      repeat (constructor; [unfold record_kind; simpl; auto|]). constructor.
    + apply bind_Ok_inv in H as (table_diffs & Ht & H). inversion H; subst.
      destruct table_diffs as [|d table_diffs]; [done|].
      apply Forall_app. split; [done|].
      apply wrap_table_diffs_kinds. by eapply compare_tables_kinds.
Qed.

Lemma forward_step_kinds (content2 : list json) (diffs diffs' : list diff_record)
    (item1 : json) :
  records_ok diffs → forward_step content2 diffs item1 = Ok diffs' → records_ok diffs'.
Proof.
  unfold forward_step. intros Hok H.
  apply bind_Ok_inv in H as ([processed1|] & _ & H); [|by inversion H; subst].
  apply bind_Ok_inv in H as ([found diffs1] & Hfind & H).
  apply find_match_kinds in Hfind; [|done].
  destruct found; inversion H; subst; [done|].
  apply Forall_app. split; [done|].
  apply Forall_singleton. unfold record_kind. simpl. auto.
Qed.

Lemma backward_step_kinds (content1 : list json) (diffs diffs' : list diff_record)
    (item2 : json) :
  records_ok diffs → backward_step content1 diffs item2 = Ok diffs' → records_ok diffs'.
Proof.
  unfold backward_step. intros Hok H.
  apply bind_Ok_inv in H as ([processed2|] & _ & H); [|by inversion H; subst].
  apply bind_Ok_inv in H as (found & _ & H).
  destruct found; inversion H; subst; [done|].
  apply Forall_app. split; [done|].
  apply Forall_singleton. unfold record_kind. simpl. auto.
Qed.

(** C10.  Every record [diff_content] returns has as its ["type"] one of
    ["removed"], ["added"] and ["structure"], whichever of the two passes
    or the table comparator it comes from. *)
Theorem diff_content_record_kinds (content1 content2 : list json)
    (diffs : list diff_record) :
  diff_content content1 content2 = Ok diffs →
  Forall (λ d, record_kind (dr_type d)) diffs.
Proof.
  unfold diff_content. intros H.
  apply bind_Ok_inv in H as (diffs1 & H1 & H2).
  revert H2. apply (for_each_invariant records_ok).
  - intros s x s'. apply backward_step_kinds.
  - revert H1. apply (for_each_invariant records_ok); [|constructor].
    intros s x s'. apply forward_step_kinds.
Qed.

Lemma diff_content_record_kinds_witness :
  ∃ diffs,
    diff_content [paragraph_item ["A"]; table_item [["x"]; ["y"]]; table_item [["u"]]]
                 [table_item [["x"]; ["z"]; ["y"]]; paragraph_item ["B"]] = Ok diffs
    ∧ dr_type <$> diffs = ["removed"; "added"; "structure"; "structure"; "added"; "added"]
    ∧ Forall (λ d, record_kind (dr_type d)) diffs.
Proof.
  eexists. split; [reflexivity|]. split; [reflexivity|].
  apply (diff_content_record_kinds
           [paragraph_item ["A"]; table_item [["x"]; ["y"]]; table_item [["u"]]]
           [table_item [["x"]; ["z"]; ["y"]]; paragraph_item ["B"]]).
  reflexivity.
Defined.

(** ** The diff engine on the scenarios *)

(** C1.  For two items that normalize to the paragraphs "Hello" and
    "World", [diff_content] returns three records: the first pass reports
    "Hello" removed and "World" added, and the second pass, which finds no
    paragraph with the text "World" in [content1], reports "World" added
    once more. *)
Theorem scenario2_records (item1 item2 style1 style2 original1 original2 : json) :
  extract_text_from_item item1 = Ok (Some (Paragraph "Hello" style1 original1)) →
  extract_text_from_item item2 = Ok (Some (Paragraph "World" style2 original2)) →
  diff_content [item1] [item2]
  = Ok [removed (Paragraph "Hello" style1 original1);
        added (Paragraph "World" style2 original2);
        added (Paragraph "World" style2 original2)].
Proof.
  intros H1 H2. unfold diff_content. simpl. unfold forward_step. rewrite H1. simpl.
  rewrite H2. simpl. unfold backward_step. rewrite H2. simpl. by rewrite H1.
Qed.

Lemma scenario2_records_witness :
  diff_content [paragraph_item ["Hello"]] [paragraph_item ["World"]]
  = Ok [removed (plain "Hello"); added (plain "World"); added (plain "World")].
Proof.
  apply (scenario2_records (paragraph_item ["Hello"]) (paragraph_item ["World"]));
    reflexivity.
Defined.

(** The scenario does not end with two records. *)
Lemma scenario2_not_two_records :
  ¬ ∃ r1 r2,
      diff_content [paragraph_item ["Hello"]] [paragraph_item ["World"]] = Ok [r1; r2].
Proof. intros (r1 & r2 & H). vm_compute in H. discriminate H. Qed.

(** C3.  For a table of two rows of one cell against a table of three rows
    of one cell, whatever the cells hold, [diff_content] returns two
    records: the structure record "Different number of rows" of the first
    pass, and an added record for the table of [content2], for which the
    second pass finds no table of three rows in [content1]. *)
Theorem scenario3_records (a b c d e : string) :
  diff_content [table_item [[a]; [b]]] [table_item [[c]; [d]; [e]]]
  = Ok [ {| dr_type := "structure";
            dr_content := TableEntry (StructureDiff "Different number of rows")
                                     (table_item [[c]; [d]; [e]]) |};
         added (Table (table_data [[c]; [d]; [e]]) (table_item [[c]; [d]; [e]])) ].
Proof. reflexivity. Qed.

(** The scenario does not end with one record. *)
Lemma scenario3_not_one_record :
  ¬ ∃ r, diff_content [table_item [["a"]; ["b"]]] [table_item [["a"]; ["b"]; ["c"]]]
         = Ok [r].
Proof. intros (r & H). vm_compute in H. discriminate H. Qed.

(** ** Comparing a sequence with itself *)

Lemma concat_imap_nil {A B : Type} (f : nat → A → list B) (l : list A) :
  (∀ i x, l !! i = Some x → f i x = []) → concat (imap f l) = [].
Proof.
  revert f; induction l as [|x l IH]; intros f Hf; [reflexivity|].
  simpl. rewrite (Hf 0 x) by done. simpl. apply IH.
  intros i y Hy. apply (Hf (S i) y Hy).
Qed.

Lemma cells_equal (r : nat) (texts : list string) : row_records r texts texts = [].
Proof.
  unfold row_records. rewrite decide_True by done.
  apply concat_imap_nil. intros c [text1 text2] Hc.
  apply lookup_zip_with_Some in Hc as (x & y & [= <- <-] & Hx & Hy).
  assert (text1 = text2) as -> by congruence.
  unfold cell_records. by rewrite decide_True.
Qed.

(** A table compared with a table of the same cell texts gives no record. *)
Lemma compare_grids_refl (rows : list (list string)) : compare_grids rows rows = [].
Proof.
  unfold compare_grids. rewrite decide_True by done.
  apply concat_imap_nil. intros r [row1 row2] Hr.
  apply lookup_zip_with_Some in Hr as (x & y & [= <- <-] & Hx & Hy).
  assert (row1 = row2) as -> by congruence.
  apply cells_equal.
Qed.

Lemma table_texts_len (data : json) (rows : list (list string)) :
  table_texts data = Ok rows →
  (Py.getitem data "tableRows" ≫= Py.len) = Ok (length rows).
Proof.
  unfold table_texts. intros H.
  apply bind_Ok_inv in H as (rs & Hr & H).
  apply bind_Ok_inv in Hr as (r & Hg & Hi).
  rewrite Hg. simpl. rewrite (iter_len _ _ Hi).
  by rewrite (map_result_length _ _ _ H).
Qed.

Section Uniform.
Variable text : string.
Variable rows : list (list string).

(** The inner loop of the first pass finds the first element of the type
    of [processed1] and has nothing to report on it. *)
Lemma find_match_uniform (processed1 : processed) (items : list json)
    (outputs : list (option processed)) (diffs : list diff_record) :
  uniform text rows (Some processed1) →
  normalized items outputs → Forall (uniform text rows) outputs →
  find_match processed1 items diffs
  = Ok (has_type (processed_type processed1) outputs, diffs).
Proof.
  intros H1 Hnorm. induction Hnorm as [|item o items outputs Hitem _ IH];
    intros Hall; [reflexivity|].
  apply Forall_cons in Hall as [Ho Hall]. simpl. rewrite Hitem. simpl.
  destruct o as [processed2|]; [|by apply IH].
  destruct processed1 as [text1 ? ?|data1 ?], processed2 as [text2 ? ?|data2 ?];
    simpl in *; try by apply IH.
  - subst. by rewrite String.eqb_refl.
  - rewrite (compare_tables_grids _ _ _ _ H1 Ho), compare_grids_refl. done.
Qed.

(** The inner loop of the second pass finds an element of the type of
    [processed2]. *)
Lemma found_in_uniform (processed2 : processed) (items : list json)
    (outputs : list (option processed)) :
  uniform text rows (Some processed2) →
  normalized items outputs → Forall (uniform text rows) outputs →
  found_in processed2 items = Ok (has_type (processed_type processed2) outputs).
Proof.
  intros H2 Hnorm. induction Hnorm as [|item o items outputs Hitem _ IH];
    intros Hall; [reflexivity|].
  apply Forall_cons in Hall as [Ho Hall]. simpl. rewrite Hitem. simpl.
  destruct o as [processed1|]; [|by apply IH].
  destruct processed1 as [text1 ? ?|data1 ?], processed2 as [text2 ? ?|data2 ?];
    simpl in *; try by apply IH.
  - subst. by rewrite String.eqb_refl.
  - rewrite (table_texts_len _ _ Ho), (table_texts_len _ _ H2). simpl.
    by rewrite Nat.eqb_refl.
Qed.

Lemma has_type_elem (p : processed) (outputs : list (option processed)) :
  Some p ∈ outputs → has_type (processed_type p) outputs = true.
Proof.
  intros Hin. apply existsb_exists. exists (Some p).
  split; [by apply list_elem_of_In | apply String.eqb_refl].
Qed.

Variable content : list json.
Variable outputs : list (option processed).
Hypothesis content_normalized : normalized content outputs.
Hypothesis content_uniform : Forall (uniform text rows) outputs.

Lemma forward_step_uniform (item : json) (o : option processed) :
  extract_text_from_item item = Ok o → o ∈ outputs →
  forward_step content [] item = Ok [].
Proof.
  intros Hitem Ho. unfold forward_step. rewrite Hitem, bind_Ok.
  destruct o as [p|]; [|done].
  rewrite (find_match_uniform p content outputs []); try done.
  - by rewrite bind_Ok, has_type_elem.
  - by apply (proj1 (Forall_forall _ _) content_uniform).
Qed.

Lemma backward_step_uniform (item : json) (o : option processed) :
  extract_text_from_item item = Ok o → o ∈ outputs →
  backward_step content [] item = Ok [].
Proof.
  intros Hitem Ho. unfold backward_step. rewrite Hitem, bind_Ok.
  destruct o as [p|]; [|done].
  rewrite (found_in_uniform p content outputs); try done.
  - by rewrite bind_Ok, has_type_elem.
  - by apply (proj1 (Forall_forall _ _) content_uniform).
Qed.

Lemma forward_pass_uniform (items : list json) (os : list (option processed)) :
  normalized items os → os ⊆ outputs →
  for_each items [] (forward_step content) = Ok [].
Proof.
  intros Hnorm. induction Hnorm as [|item o items os Hitem _ IH]; intros Hsub;
    [reflexivity|].
  rewrite for_each_cons, (forward_step_uniform item o Hitem), bind_Ok.
  - apply IH. intros x Hx. apply Hsub. by right.
  - apply Hsub. left.
Qed.

Lemma backward_pass_uniform (items : list json) (os : list (option processed)) :
  normalized items os → os ⊆ outputs →
  for_each items [] (backward_step content) = Ok [].
Proof.
  intros Hnorm. induction Hnorm as [|item o items os Hitem _ IH]; intros Hsub;
    [reflexivity|].
  rewrite for_each_cons, (backward_step_uniform item o Hitem), bind_Ok.
  - apply IH. intros x Hx. apply Hsub. by right.
  - apply Hsub. left.
Qed.

End Uniform.

(** C2.  A sequence compared with itself gives no record when all its
    paragraphs have the same text and all its tables the same cell texts,
    so that every element agrees with the first element of its type, which
    is the one the first pass compares it with. *)
Theorem diff_content_self (content : list json) (outputs : list (option processed))
    (text : string) (rows : list (list string)) :
  normalized content outputs → Forall (uniform text rows) outputs →
  diff_content content content = Ok [].
Proof.
  intros Hnorm Hall. unfold diff_content.
  rewrite (forward_pass_uniform text rows content outputs Hnorm Hall content outputs)
    by done.
  simpl.
  by rewrite (backward_pass_uniform text rows content outputs Hnorm Hall content outputs).
Qed.

Lemma diff_content_self_witness :
  diff_content
    [paragraph_item ["A"]; table_item [["x"]; ["y"]]; JObj []; paragraph_item [" A "];
     table_item [["x"]; ["y"]]]
    [paragraph_item ["A"]; table_item [["x"]; ["y"]]; JObj []; paragraph_item [" A "];
     table_item [["x"]; ["y"]]]
  = Ok [].
Proof.
  apply (diff_content_self _
           [Some (plain "A");
            Some (Table (table_data [["x"]; ["y"]]) (table_item [["x"]; ["y"]]));
            None;
            Some (Paragraph "A" (JStr "NORMAL_TEXT") (paragraph_item [" A "]));
            Some (Table (table_data [["x"]; ["y"]]) (table_item [["x"]; ["y"]]))]
           "A" [["x"]; ["y"]]).
  - repeat constructor.
  - repeat constructor.
Defined.

(** Two paragraphs with different texts: the first pass compares the second
    one with the first, which is the first paragraph it finds. *)
Lemma diff_content_self_distinct :
  ¬ ∀ content outputs,
      normalized content outputs → NoDup (paragraph_texts outputs) →
      diff_content content content = Ok [].
Proof.
  intros H.
  specialize (H [paragraph_item ["A"]; paragraph_item ["B"]]
                [Some (plain "A"); Some (plain "B")]).
  assert (diff_content [paragraph_item ["A"]; paragraph_item ["B"]]
                       [paragraph_item ["A"]; paragraph_item ["B"]]
          = Ok [removed (plain "B"); added (plain "A")]) as Hrun by reflexivity.
  rewrite H in Hrun; [discriminate Hrun | repeat constructor |].
  apply (bool_decide_unpack _). by vm_compute.
Qed.

(** ** The matcher stays in its range and ends *)

Section LongestMatch.
Variables a b : list Ascii.ascii.
Variables alo ahi blo bhi : nat.
Hypothesis a_range : alo ≤ ahi.
Hypothesis b_range : blo ≤ bhi.

Lemma j2lenget_in (i j : nat) (j2len : gmap nat nat) :
  j2len_in alo blo i j2len → blo ≤ j →
  Difflib.j2lenget j2len j ≤ i - alo ∧ Difflib.j2lenget j2len j + blo ≤ j.
Proof.
  intros Hin Hj. destruct j as [|j']; simpl; [lia|].
  destruct (j2len !! j') as [v|] eqn:Hv; simpl; [|lia].
  destruct (Hin j' v Hv). lia.
Qed.

Lemma scan_row_in (i : nat) (js : list nat) (j2len newj2len : gmap nat nat)
    (best : Difflib.block) :
  alo ≤ i < ahi →
  j2len_in alo blo i j2len → j2len_in alo blo (S i) newj2len →
  block_in alo ahi blo bhi best →
  j2len_in alo blo (S i) (Difflib.scan_row blo bhi i js j2len newj2len best).1
  ∧ block_in alo ahi blo bhi (Difflib.scan_row blo bhi i js j2len newj2len best).2.
Proof.
  intros Hi Hold. revert newj2len best.
  induction js as [|j js IH]; intros newj2len best Hnew Hbest; simpl; [done|].
  destruct (j <? blo) eqn:Hlo; [by apply IH|].
  destruct (bhi <=? j) eqn:Hhi; [done|].
  apply Nat.ltb_ge in Hlo. apply Nat.leb_gt in Hhi.
  destruct (j2lenget_in i j j2len Hold Hlo) as [Hk1 Hk2].
  destruct best as [[besti bestj] bestsize].
  apply IH.
  - intros j' v. rewrite lookup_insert. case_decide; [|by apply Hnew].
    intros [= <-]. lia.
  - destruct (bestsize <? Difflib.j2lenget j2len j + 1); [|done].
    simpl. lia.
Qed.

Lemma extend_left_in (junk : bool) (besti bestj bestsize : nat) :
  block_in alo ahi blo bhi (besti, bestj, bestsize) →
  block_in alo ahi blo bhi (Difflib.extend_left a b alo blo junk besti bestj bestsize).
Proof.
  revert bestj bestsize. induction besti as [|besti IH]; intros bestj bestsize Hin;
    [done|].
  simpl.
  destruct (alo <? S besti) eqn:Ha; [|done].
  destruct (blo <? bestj) eqn:Hb; [|done].
  destruct (Difflib.junk_at b junk (bestj - 1)); [|done].
  destruct (Difflib.same_at a b (besti - 0) (bestj - 1)); [|done].
  simpl. apply Nat.ltb_lt in Ha, Hb. apply IH. simpl in *. lia.
Qed.

Lemma extend_right_in (junk : bool) (n besti bestj bestsize : nat) :
  block_in alo ahi blo bhi (besti, bestj, bestsize) →
  block_in alo ahi blo bhi (Difflib.extend_right a b ahi bhi junk n besti bestj bestsize).
Proof.
  revert bestsize. induction n as [|n IH]; intros bestsize Hin; [done|].
  simpl.
  destruct (besti + bestsize <? ahi) eqn:Ha; [|done].
  destruct (bestj + bestsize <? bhi) eqn:Hb; [|done].
  destruct (Difflib.junk_at b junk (bestj + bestsize)); [|done].
  destruct (Difflib.same_at a b (besti + bestsize) (bestj + bestsize)); [|done].
  simpl. apply Nat.ltb_lt in Ha, Hb. apply IH. simpl in *. lia.
Qed.

(** The count [extend_right] is given lasts: where it stops, the condition
    of the [while] is false. *)
Lemma extend_right_stops (junk : bool) (n besti bestj bestsize : nat) :
  ahi - (besti + bestsize) ≤ n →
  let '(i, j, k) := Difflib.extend_right a b ahi bhi junk n besti bestj bestsize in
  (i + k <? ahi) && (j + k <? bhi) && Difflib.junk_at b junk (j + k)
  && Difflib.same_at a b (i + k) (j + k) = false.
Proof.
  revert bestsize. induction n as [|n IH]; intros bestsize Hn; simpl.
  - assert ((besti + bestsize <? ahi) = false) as -> by (apply Nat.ltb_ge; lia). done.
  - destruct ((besti + bestsize <? ahi) && (bestj + bestsize <? bhi)
              && Difflib.junk_at b junk (bestj + bestsize)
              && Difflib.same_at a b (besti + bestsize) (bestj + bestsize)) eqn:Hcond;
      [|done].
    apply IH. lia.
Qed.

(** The rows of the main loop, from the row [i] on. *)
Lemma rows_in (b2j : gmap Ascii.ascii (list nat)) (n i : nat)
    (j2len : gmap nat nat) (best : Difflib.block) :
  alo ≤ i → i + n ≤ ahi →
  j2len_in alo blo i j2len → block_in alo ahi blo bhi best →
  block_in alo ahi blo bhi
    (foldl (λ '(j2len, best) i,
              let js := from_option (λ x, default [] (b2j !! x)) [] (a !! i) in
              Difflib.scan_row blo bhi i js j2len ∅ best)
           (j2len, best) (seq i n)).2.
Proof.
  revert i j2len best. induction n as [|n IH]; intros i j2len best Hlo Hhi Hj Hb; [done|].
  simpl.
  destruct (scan_row_in i (from_option (λ x, default [] (b2j !! x)) [] (a !! i))
              j2len ∅ best) as [Hj' Hb']; [lia | done | | done |].
  { intros j v. by rewrite lookup_empty. }
  destruct (Difflib.scan_row blo bhi i _ j2len ∅ best) as [j2len' best'].
  apply IH; [lia | lia | done | done].
Qed.

(** [find_longest_match] returns a block of the range it is given. *)
Lemma find_longest_match_in :
  block_in alo ahi blo bhi (Difflib.find_longest_match a b alo ahi blo bhi).
Proof.
  unfold Difflib.find_longest_match.
  pose proof (rows_in (Difflib.chain_b b) (ahi - alo) alo ∅ (alo, blo, 0)) as Hrows.
  destruct (foldl _ _ _) as [j2len [[besti bestj] bestsize]].
  simpl in Hrows.
  assert (block_in alo ahi blo bhi (besti, bestj, bestsize)) as H0.
  { apply Hrows; [lia | lia | | simpl; lia]. intros j v. by rewrite lookup_empty. }
  clear Hrows.
  apply (extend_left_in false) in H0.
  destruct (Difflib.extend_left a b alo blo false _ _ _) as [[i1 j1] k1].
  apply (extend_right_in false (ahi - (i1 + k1))) in H0.
  destruct (Difflib.extend_right a b ahi bhi false _ _ _ _) as [[i2 j2] k2].
  apply (extend_left_in true) in H0.
  destruct (Difflib.extend_left a b alo blo true _ _ _) as [[i3 j3] k3].
  by apply (extend_right_in true).
Qed.

End LongestMatch.

Lemma queue_weight_cons (alo ahi blo bhi : nat) (queue : list (nat * nat * nat * nat)) :
  queue_weight ((alo, ahi, blo, bhi) :: queue) = 2 * (ahi - alo) + 1 + queue_weight queue.
Proof. reflexivity. Qed.

(** The fuel of the [while queue:] loop suffices: a turn takes the range at
    the head of the queue away and puts back at most the two ranges around
    a block of at least one element. *)
Lemma matching_loop_ends (a b : list Ascii.ascii) (fuel : nat)
    (queue : list (nat * nat * nat * nat)) (matching_blocks : list Difflib.block) :
  Forall range_ok queue → queue_weight queue ≤ fuel →
  is_Some (Difflib.matching_loop a b fuel queue matching_blocks).
Proof.
  revert queue matching_blocks.
  induction fuel as [|fuel IH]; intros queue matching_blocks Hok Hw.
  - destruct queue as [|[[[alo ahi] blo] bhi] queue]; [by eexists|].
    rewrite queue_weight_cons in Hw. lia.
  - destruct queue as [|[[[alo ahi] blo] bhi] queue]; [by eexists|].
    apply Forall_cons in Hok as [[Ha Hb] Hok].
    rewrite queue_weight_cons in Hw.
    simpl.
    pose proof (find_longest_match_in a b alo ahi blo bhi Ha Hb) as Hin.
    destruct (Difflib.find_longest_match a b alo ahi blo bhi) as [[i j] k].
    simpl in Hin.
    destruct (k =? 0) eqn:Hk; simpl.
    + apply IH; [done | lia].
    + apply Nat.eqb_neq in Hk.
      destruct ((alo <? i) && (blo <? j)) eqn:Hleft,
               ((i + k <? ahi) && (j + k <? bhi)) eqn:Hright;
        (apply IH;
         [ repeat (apply Forall_cons; split); try done; simpl; lia
         | rewrite ?queue_weight_cons; lia ]).
Qed.

Lemma get_matching_blocks_total (a b : list Ascii.ascii) :
  is_Some (Difflib.get_matching_blocks a b).
Proof.
  unfold Difflib.get_matching_blocks.
  destruct (matching_loop_ends a b (2 * length a + 1) [(0, length a, 0, length b)] [])
    as [blocks ->].
  - apply Forall_singleton. simpl. lia.
  - unfold queue_weight. simpl. lia.
  - simpl. destruct (foldl _ _ _) as [[[i1 j1] k1] non_adjacent]. by eexists.
Qed.

Lemma get_opcodes_total (a b : list Ascii.ascii) : is_Some (Difflib.get_opcodes a b).
Proof.
  unfold Difflib.get_opcodes.
  destruct (get_matching_blocks_total a b) as [blocks ->]. by eexists.
Qed.

(** The differ always returns. *)
Lemma compare_text_content_total (text1 text2 : string) :
  is_Some (compare_text_content text1 text2).
Proof.
  unfold compare_text_content.
  destruct (get_opcodes_total (str text1) (str text2)) as [opcodes Hop].
  unfold str in Hop. rewrite Hop. by eexists.
Qed.

(** ** The records of the opcodes *)

Lemma span_step_records (text1 text2 : string) (result : list span)
    (o : Difflib.opcode) :
  span_step text1 text2 result o = result ++ span_records text1 text2 o.
Proof.
  destruct o as [[] i1 i2 j1 j2]; unfold span_step, span_records; simpl.
  - by rewrite <- app_assoc.
  - done.
  - done.
  - by rewrite app_nil_r.
Qed.

Lemma span_loop_records (text1 text2 : string) (opcodes : list Difflib.opcode)
    (result : list span) :
  foldl (span_step text1 text2) result opcodes
  = result ++ concat (span_records text1 text2 <$> opcodes).
Proof.
  revert result. induction opcodes as [|o opcodes IH]; intros result; simpl.
  - by rewrite app_nil_r.
  - by rewrite IH, span_step_records, <- app_assoc.
Qed.

(** C6.  For every pair of strings the matcher yields its opcodes, and
    [compare_text_content] returns, in the order of the opcodes, the
    records of each: one removed span with the old slice, the old text and
    the range for a delete; one added span with the new slice for an
    insert; a removed span and then an added span for a replace; nothing
    for an equal run. *)
Theorem compare_text_content_opcodes (old new : string) :
  ∃ opcodes,
    Difflib.get_opcodes (str old) (str new) = Some opcodes
    ∧ compare_text_content old new = Some (concat (span_records old new <$> opcodes))
    ∧ Forall (λ o,
        span_records old new o =
        match Difflib.op o with
        | Difflib.Delete =>
            [ {| sp_type := "removed";
                 sp_text := Py.slice old (Difflib.i1 o) (Difflib.i2 o);
                 sp_full_text := old;
                 sp_range := (Difflib.i1 o, Difflib.i2 o) |} ]
        | Difflib.Insert =>
            [ {| sp_type := "added";
                 sp_text := Py.slice new (Difflib.j1 o) (Difflib.j2 o);
                 sp_full_text := new;
                 sp_range := (Difflib.j1 o, Difflib.j2 o) |} ]
        | Difflib.Replace =>
            [ {| sp_type := "removed";
                 sp_text := Py.slice old (Difflib.i1 o) (Difflib.i2 o);
                 sp_full_text := old;
                 sp_range := (Difflib.i1 o, Difflib.i2 o) |};
              {| sp_type := "added";
                 sp_text := Py.slice new (Difflib.j1 o) (Difflib.j2 o);
                 sp_full_text := new;
                 sp_range := (Difflib.j1 o, Difflib.j2 o) |} ]
        | Difflib.Equal => []
        end) opcodes.
Proof.
  destruct (get_opcodes_total (str old) (str new)) as [opcodes Hop].
  exists opcodes. split; [done|]. split.
  - unfold compare_text_content. unfold str in Hop. rewrite Hop. simpl.
    by rewrite span_loop_records.
  - apply Forall_forall. intros o _. by destruct o as [[] ? ? ? ?].
Qed.

(** ** A string matched with itself *)

Lemma positions_from_elem (k : nat) (x : Ascii.ascii) (l : list Ascii.ascii) (j : nat) :
  j ∈ positions_from k x l ↔ ∃ j', j = k + j' ∧ l !! j' = Some x.
Proof.
  revert k. induction l as [|y l IH]; intros k; simpl.
  - split; [by intros ?%elem_of_nil | by intros (j' & _ & ?)].
  - rewrite elem_of_app, IH. split.
    + intros [Hj|(j' & -> & Hj')].
      * destruct (decide (y = x)) as [->|]; [|by apply elem_of_nil in Hj].
        apply list_elem_of_singleton in Hj as ->. exists 0. split; [lia | done].
      * exists (S j'). split; [lia | done].
    + intros ([|j'] & -> & Hj'); simpl in Hj'.
      * left. injection Hj' as ->. rewrite decide_True by done.
        apply list_elem_of_singleton. lia.
      * right. exists j'. split; [lia | done].
Qed.

Lemma positions_from_sorted (k : nat) (x : Ascii.ascii) (l : list Ascii.ascii) :
  StronglySorted lt (positions_from k x l).
Proof.
  revert k. induction l as [|y l IH]; intros k; simpl; [constructor|].
  destruct (decide (y = x)); simpl; [|apply IH].
  constructor; [apply IH|].
  apply Forall_forall. intros j (j' & -> & _)%positions_from_elem. lia.
Qed.

Lemma positions_from_snoc (k : nat) (x e : Ascii.ascii) (l : list Ascii.ascii) :
  positions_from k x (l ++ [e])
  = positions_from k x l ++ (if decide (e = x) then [k + length l] else []).
Proof.
  revert k. induction l as [|y l IH]; intros k; simpl.
  - rewrite Nat.add_0_r. by rewrite app_nil_r.
  - rewrite IH, <- app_assoc.
    by replace (S k + length l) with (k + S (length l)) by lia.
Qed.

(** The first loop of [__chain_b], run on the rest of [b] after the
    prefix [p]. *)
Lemma chain_b_loop (p rest : list Ascii.ascii) (b2j : gmap Ascii.ascii (list nat)) :
  (∀ x, default [] (b2j !! x) = positions_from 0 x p) →
  ∀ x, default []
         (foldl (λ b2j '(i, elt), <[elt := default [] (b2j !! elt) ++ [i]]> b2j)
                b2j (zip (seq (length p) (length rest)) rest) !! x)
       = positions_from 0 x (p ++ rest).
Proof.
  revert p b2j. induction rest as [|e rest IH]; intros p b2j Hinv x.
  - simpl. by rewrite app_nil_r.
  - simpl. replace (p ++ e :: rest) with ((p ++ [e]) ++ rest) by by rewrite <- app_assoc.
    replace (S (length p)) with (length (p ++ [e])) by (rewrite length_app; simpl; lia).
    apply IH. intros y. rewrite positions_from_snoc, lookup_insert. simpl.
    destruct (decide (e = y)) as [->|Hy]; simpl.
    + by rewrite Hinv.
    + by rewrite app_nil_r.
Qed.

(** What [b2j] holds for an element is all the indices of the element. *)
Lemma chain_b_lookup (b : list Ascii.ascii) (x : Ascii.ascii) (js : list nat) :
  Difflib.chain_b b !! x = Some js → js = positions_from 0 x b.
Proof.
  unfold Difflib.chain_b, enumerate. intros H.
  pose proof (chain_b_loop [] b ∅) as Hloop. simpl in Hloop.
  set (b2j := foldl _ _ _) in *.
  assert (b2j !! x = Some js) as Hjs.
  { destruct (200 <=? length b); [|done].
    by apply map_lookup_filter_Some in H as [H _]. }
  rewrite <- Hloop; [by rewrite Hjs|].
  intros y. by rewrite lookup_empty.
Qed.

Section SelfMatch.
Variable a : list Ascii.ascii.

Lemma run_le (i : nat) : run a i ≤ i.
Proof. induction i as [|i IH]; simpl; [done|]. destruct (kept a i); lia. Qed.

Lemma run_kept (i : nat) (x : Ascii.ascii) :
  a !! i = Some x → is_Some (Difflib.chain_b a !! x) → run a (S i) = S (run a i).
Proof.
  intros Hi Hx. simpl. unfold kept. rewrite Hi. simpl.
  by rewrite bool_decide_eq_true_2.
Qed.

Lemma run_dropped (i : nat) (x : Ascii.ascii) :
  a !! i = Some x → Difflib.chain_b a !! x = None → run a (S i) = 0.
Proof.
  intros Hi Hx. simpl. unfold kept. rewrite Hi. simpl.
  rewrite bool_decide_eq_false_2; [done|]. rewrite Hx. by intros [??].
Qed.

(** The loop over the indices of [a[i]], which is a kept element: only the
    index [i] itself can improve on the best block. *)
Lemma scan_row_self (i : nat) (x : Ascii.ascii) (j2len : gmap nat nat) (js : list nat) :
  a !! i = Some x → is_Some (Difflib.chain_b a !! x) →
  (∀ j, Difflib.j2lenget j2len j ≤ run a i ∧ Difflib.j2lenget j2len j ≤ run a j) →
  Difflib.j2lenget j2len i = run a i →
  StronglySorted lt js → (∀ j, j ∈ js → a !! j = Some x) →
  ∀ newj2len besti bestsize,
    besti + bestsize ≤ S i → (∀ i', i' ≤ i → run a i' ≤ bestsize) →
    (i ∈ js ∨ run a (S i) ≤ bestsize) →
    ∃ nj d s,
      Difflib.scan_row 0 (length a) i js j2len newj2len (besti, besti, bestsize)
      = (nj, (d, d, s))
      ∧ d + s ≤ S i ∧ (∀ i', i' ≤ S i → run a i' ≤ s)
      ∧ (∀ j, nj !! j = if decide (j ∈ js) then Some (Difflib.j2lenget j2len j + 1)
                        else newj2len !! j).
Proof.
  intros Hi Hx Hlen Hdiag. induction js as [|j js IH];
    intros Hsorted Hjs newj2len besti bestsize Hbest Hruns Hdone.
  - exists newj2len, besti, bestsize. simpl. repeat split; try done.
    intros i' Hi'. destruct Hdone as [Hin|Hdone]; [by apply elem_of_nil in Hin|].
    destruct (decide (i' = S i)) as [->|]; [done|]. apply Hruns. lia.
  - apply StronglySorted_inv in Hsorted as [Hsorted Hhead].
    assert (a !! j = Some x) as Hj by (apply Hjs; left).
    assert (j < length a) as Hjlt by (by eapply lookup_lt_Some).
    simpl. apply Nat.leb_gt in Hjlt as Hguard. rewrite Hguard. clear Hguard.
    destruct (Hlen j) as [Hk1 Hk2].
    pose proof (run_kept i x Hi Hx) as Hrun_i.
    pose proof (run_kept j x Hj Hx) as Hrun_j.
    set (k := Difflib.j2lenget j2len j + 1) in *.
    assert (∀ (nj : gmap nat nat) (d s : nat),
              (∀ j0, nj !! j0 = if decide (j0 ∈ js) then Some (Difflib.j2lenget j2len j0 + 1)
                                else <[j := k]> newj2len !! j0) →
              ∀ j0, nj !! j0 = if decide (j0 ∈ j :: js)
                               then Some (Difflib.j2lenget j2len j0 + 1)
                               else newj2len !! j0) as Hnj.
    { intros nj _ _ Hspec j0. rewrite Hspec.
      destruct (decide (j0 = j)) as [->|Hne].
      - rewrite (decide_True (P := j ∈ j :: js)) by left.
        case_decide; [done|]. by rewrite lookup_insert_eq.
      - rewrite lookup_insert_ne by done.
        destruct (decide (j0 ∈ js)) as [Hin|Hnin].
        + by rewrite decide_True by (by right).
        + rewrite decide_False; [done|]. by intros [?|?]%elem_of_cons. }
    assert (∀ j', j' ∈ js → a !! j' = Some x) as Hjs' by (intros; apply Hjs; by right).
    destruct (lt_eq_lt_dec j i) as [[Hlt|Heq]|Hgt].
    + (* an index before [i]: the run it ends was counted *)
      assert ((bestsize <? k) = false) as ->.
      { apply Nat.ltb_ge. specialize (Hruns (S j)). lia. }
      destruct (IH Hsorted Hjs' (<[j := k]> newj2len) besti bestsize Hbest Hruns)
        as (nj & d & s & Hscan & Hd & Hs & Hspec).
      { destruct Hdone as [[?|?]%elem_of_cons|?]; [lia | by left | by right]. }
      exists nj, d, s. repeat split; try done. by apply (Hnj nj d s).
    + (* the index [i] itself *)
      subst j. assert (k = run a (S i)) as Hk by (unfold k; lia).
      pose proof (run_le (S i)) as Hle.
      destruct (bestsize <? k) eqn:Hcmp.
      * apply Nat.ltb_lt in Hcmp.
        destruct (IH Hsorted Hjs' (<[i := k]> newj2len) (i + 1 - k) k)
          as (nj & d & s & Hscan & Hd & Hs & Hspec).
        { lia. } { intros i' Hi'. specialize (Hruns i' Hi'). lia. } { right. lia. }
        exists nj, d, s. repeat split; try done. by apply (Hnj nj d s).
      * apply Nat.ltb_ge in Hcmp.
        destruct (IH Hsorted Hjs' (<[i := k]> newj2len) besti bestsize Hbest Hruns)
          as (nj & d & s & Hscan & Hd & Hs & Hspec).
        { right. lia. }
        exists nj, d, s. repeat split; try done. by apply (Hnj nj d s).
    + (* an index after [i]: the index [i] was seen *)
      assert (run a (S i) ≤ bestsize) as Hseen.
      { destruct Hdone as [[?|Hin]%elem_of_cons|?]; [lia| |done].
        rewrite Forall_forall in Hhead. specialize (Hhead i Hin). lia. }
      assert ((bestsize <? k) = false) as -> by (apply Nat.ltb_ge; lia).
      destruct (IH Hsorted Hjs' (<[j := k]> newj2len) besti bestsize Hbest Hruns)
        as (nj & d & s & Hscan & Hd & Hs & Hspec); [by right|].
      exists nj, d, s. repeat split; try done. by apply (Hnj nj d s).
Qed.

(** One row of the main loop. *)
Lemma row_self (i : nat) (st : gmap nat nat * Difflib.block) :
  i < length a → row_inv a i st →
  row_inv a (S i)
    ((λ '(j2len, best) i,
        let js := from_option (λ x, default [] (Difflib.chain_b a !! x)) [] (a !! i) in
        Difflib.scan_row 0 (length a) i js j2len ∅ best) st i).
Proof.
  intros Hi. destruct st as [j2len [[besti bestj] bestsize]].
  intros (-> & Hbest & Hruns & Hlen & Hdiag).
  destruct (lookup_lt_is_Some_2 a i Hi) as [x Hx]. rewrite Hx. simpl.
  destruct (Difflib.chain_b a !! x) as [js|] eqn:Hjs; simpl.
  - assert (is_Some (Difflib.chain_b a !! x)) as Hkept by (by rewrite Hjs).
    pose proof (chain_b_lookup a x js Hjs) as ->.
    pose proof (run_kept i x Hx Hkept) as Hrun.
    assert (i ∈ positions_from 0 x a) as Hin_i by (apply positions_from_elem; by exists i).
    assert (∀ j, j ∈ positions_from 0 x a → a !! j = Some x) as Hpos.
    { by intros j (j' & -> & Hj)%positions_from_elem. }
    assert (bestj + bestsize ≤ S i) as Hbest' by lia.
    destruct (scan_row_self i x j2len (positions_from 0 x a) Hx Hkept Hlen Hdiag
                (positions_from_sorted 0 x a) Hpos ∅ bestj bestsize Hbest' Hruns
                (or_introl Hin_i))
      as (nj & d & s & -> & Hd & Hs & Hspec).
    assert (∀ j, Difflib.j2lenget nj j ≤ run a (S i)
                 ∧ Difflib.j2lenget nj j ≤ run a j) as Hnj.
    { intros [|j]; simpl Difflib.j2lenget; [lia|]. rewrite Hspec.
      destruct (decide (j ∈ positions_from 0 x a)) as [Hin|].
      - destruct (Hlen j). rewrite (run_kept j x (Hpos j Hin) Hkept), Hrun.
        simpl. lia.
      - rewrite lookup_empty. simpl default. lia. }
    repeat split; try done; try apply Hnj.
    simpl Difflib.j2lenget. rewrite Hspec, decide_True, Hrun by done. simpl. lia.
  - pose proof (run_dropped i x Hx Hjs) as Hrun.
    assert (∀ j, Difflib.j2lenget ∅ j = 0) as Hempty.
    { intros [|j]; simpl; [done|]. by rewrite lookup_empty. }
    pose proof Hrun as Hrun'. simpl in Hrun'.
    unfold row_inv. rewrite Hrun'. repeat split; try done.
    + lia.
    + intros i' Hi'. destruct (decide (i' = S i)) as [->|]; [lia|]. apply Hruns. lia.
    + rewrite Hempty. lia.
    + rewrite Hempty. lia.
Qed.

(** The rows of the main loop, from the row [i] on. *)
Lemma rows_self (m i : nat) (st : gmap nat nat * Difflib.block) :
  i + m ≤ length a → row_inv a i st →
  row_inv a (i + m)
    (foldl (λ '(j2len, best) i,
              let js := from_option (λ x, default [] (Difflib.chain_b a !! x)) [] (a !! i) in
              Difflib.scan_row 0 (length a) i js j2len ∅ best)
           st (seq i m)).
Proof.
  revert i st. induction m as [|m IH]; intros i st Hm Hinv.
  - by rewrite Nat.add_0_r.
  - simpl. replace (i + S m) with (S i + m) by lia.
    apply IH; [lia|]. apply (row_self i st); [lia | done].
Qed.

Lemma same_at_self (i : nat) : i < length a → Difflib.same_at a a i i = true.
Proof.
  intros Hi. unfold Difflib.same_at.
  destruct (lookup_lt_is_Some_2 a i Hi) as [x ->]. by apply bool_decide_eq_true_2.
Qed.

Lemma junk_at_self (i : nat) : i < length a → Difflib.junk_at a false i = true.
Proof.
  intros Hi. unfold Difflib.junk_at.
  by destruct (lookup_lt_is_Some_2 a i Hi) as [x ->].
Qed.

(** A block on the diagonal grows to the left as far as the range goes. *)
Lemma extend_left_self (d s : nat) :
  d ≤ length a → Difflib.extend_left a a 0 0 false d d s = (0, 0, s + d).
Proof.
  revert s. induction d as [|d IH]; intros s Hd; simpl.
  - by rewrite Nat.add_0_r.
  - rewrite !Nat.sub_0_r. rewrite same_at_self by lia. rewrite junk_at_self by lia.
    simpl. rewrite IH by lia. f_equal. lia.
Qed.

(** And to the right. *)
Lemma extend_right_self (m s : nat) :
  s + m ≤ length a →
  Difflib.extend_right a a (length a) (length a) false m 0 0 s = (0, 0, s + m).
Proof.
  revert s. induction m as [|m IH]; intros s Hm; simpl.
  - by rewrite Nat.add_0_r.
  - assert ((s <? length a) = true) as -> by (apply Nat.ltb_lt; lia).
    rewrite same_at_self by lia. rewrite junk_at_self by lia.
    simpl. rewrite IH by lia. f_equal. lia.
Qed.

(** The longest match of a sequence with itself is the whole of it. *)
Lemma find_longest_match_self :
  Difflib.find_longest_match a a 0 (length a) 0 (length a) = (0, 0, length a).
Proof.
  unfold Difflib.find_longest_match.
  pose proof (rows_self (length a) 0 (∅, (0, 0, 0))) as Hrows.
  rewrite Nat.sub_0_r.
  destruct (foldl _ _ _) as [j2len [[besti bestj] bestsize]].
  destruct Hrows as (-> & Hbest & _); [done| |].
  { assert (∀ j, Difflib.j2lenget ∅ j = 0) as Hempty.
    { intros [|j]; simpl; [done|]. by rewrite lookup_empty. }
    repeat split; simpl; try done; try (rewrite Hempty; lia).
    intros i' Hi'. by replace i' with 0 by lia. }
  simpl in Hbest.
  rewrite extend_left_self by lia.
  rewrite extend_right_self by lia.
  replace (bestsize + bestj + (length a - (0 + (bestsize + bestj)))) with (length a) by lia.
  simpl. by rewrite Nat.sub_diag.
Qed.

(** The opcodes of a sequence against itself: one equal run, or none when
    the sequence is empty. *)
Lemma get_opcodes_self :
  Difflib.get_opcodes a a
  = Some (if decide (length a = 0) then []
          else [ {| Difflib.op := Difflib.Equal; Difflib.i1 := 0; Difflib.i2 := length a;
                    Difflib.j1 := 0; Difflib.j2 := length a |} ]).
Proof.
  unfold Difflib.get_opcodes, Difflib.get_matching_blocks.
  replace (2 * length a + 1) with (S (2 * length a)) by lia.
  simpl. rewrite find_longest_match_self.
  destruct (length a) as [|n] eqn:Hn; simpl; [reflexivity|].
  repeat (rewrite Nat.ltb_irrefl; simpl). reflexivity.
Qed.

End SelfMatch.

(** C7.  A string compared with itself gives no record: the matcher finds
    the whole string as one matching block, so that the only opcode, if the
    string is not empty, is an equal run. *)
Theorem compare_text_content_self (text : string) :
  compare_text_content text text = Some [].
Proof.
  unfold compare_text_content. rewrite get_opcodes_self.
  by destruct (decide (length (String.list_ascii_of_string text) = 0)).
Qed.

(** ** More on the element normalizer *)

Lemma rev_app_rev_app (s t u : string) :
  String.rev_app (String.rev_app s t) u = String.rev_app t (s +:+ u).
Proof.
  revert t u. induction s as [|c s IH]; intros t u; [reflexivity|].
  simpl. by rewrite IH.
Qed.

Lemma rev_involutive (s : string) : String.rev (String.rev s) = s.
Proof. unfold String.rev. by rewrite rev_app_rev_app, append_empty_r. Qed.

Lemma rev_app_append (s t : string) : String.rev_app s t = String.rev s +:+ t.
Proof.
  unfold String.rev. revert t. induction s as [|c s IH]; intros t; [reflexivity|].
  simpl. rewrite (IH (String c t)), (IH (String c "")).
  by rewrite append_assoc.
Qed.

Lemma rev_append (s t : string) : String.rev (s +:+ t) = String.rev t +:+ String.rev s.
Proof.
  induction s as [|c s IH].
  - by rewrite append_empty_l, append_empty_r.
  - change (String.rev_app (s +:+ t) (String c "")
            = String.rev t +:+ String.rev_app s (String c "")).
    rewrite !rev_app_append, IH. by rewrite append_assoc.
Qed.

Lemma lstrip_idempotent (s : string) : Py.lstrip (Py.lstrip s) = Py.lstrip s.
Proof.
  induction s as [|c s IH]; [reflexivity|].
  simpl. destruct (Py.isspace c) eqn:Hc; [done|]. simpl. by rewrite Hc.
Qed.

(** What [lstrip] leaves of a string with something put after it. *)
Lemma lstrip_append (s t : string) :
  Py.lstrip (s +:+ t)
  = if decide (Py.lstrip s = "") then Py.lstrip t else Py.lstrip s +:+ t.
Proof.
  induction s as [|c s IH]; [reflexivity|].
  change (Py.lstrip (String c (s +:+ t))
          = if decide (Py.lstrip (String c s) = "") then Py.lstrip t
            else Py.lstrip (String c s) +:+ t).
  simpl. destruct (Py.isspace c); [done|]. by rewrite decide_False.
Qed.

(** [rstrip] one character at a time. *)
Lemma rstrip_cons (c : Ascii.ascii) (s : string) :
  Py.rstrip (String c s)
  = if decide (Py.rstrip s = "")
    then (if Py.isspace c then "" else String c "")
    else String c (Py.rstrip s).
Proof.
  unfold Py.rstrip.
  change (String.rev (String c s)) with (String.rev_app s (String c "")).
  rewrite rev_app_append, lstrip_append.
  destruct (decide (Py.lstrip (String.rev s) = "")) as [Hempty|Hne].
  - rewrite Hempty. change (String.rev "") with "". rewrite decide_True by done.
    simpl. by destruct (Py.isspace c).
  - rewrite decide_False.
    + by rewrite rev_append.
    + intros Hrev. apply Hne. by rewrite <- (rev_involutive (Py.lstrip _)), Hrev.
Qed.

Lemma rstrip_idempotent (s : string) : Py.rstrip (Py.rstrip s) = Py.rstrip s.
Proof. unfold Py.rstrip. by rewrite rev_involutive, lstrip_idempotent. Qed.

(** [rstrip] keeps a first character that is not white space. *)
Lemma lstrip_rstrip (s : string) : Py.lstrip s = s → Py.lstrip (Py.rstrip s) = Py.rstrip s.
Proof.
  destruct s as [|c s]; [done|]. simpl.
  destruct (Py.isspace c) eqn:Hc.
  - intros Hs. exfalso.
    assert (String.length (Py.lstrip s) ≤ String.length s) as Hlen.
    { clear. induction s as [|c s IH]; simpl; [done|].
      destruct (Py.isspace c); simpl; lia. }
    rewrite Hs in Hlen. simpl in Hlen. lia.
  - intros _. rewrite rstrip_cons.
    destruct (decide (Py.rstrip s = "")); rewrite ?Hc; cbn [Py.lstrip]; by rewrite Hc.
Qed.

(** [strip] has nothing left to take off its own result. *)
Lemma strip_idempotent (s : string) : Py.strip (Py.strip s) = Py.strip s.
Proof.
  unfold Py.strip.
  rewrite (lstrip_rstrip (Py.lstrip s)) by apply lstrip_idempotent.
  apply rstrip_idempotent.
Qed.

(** X1.  Whatever the item, an element [extract_text_from_item] returns
    carries the item itself as its original; a paragraph has a text that is
    not empty and has no white space at either end, and comes from an item
    with a ["paragraph"]; a table is the ["table"] entry of an item without
    a ["paragraph"]. *)
Theorem extract_text_from_item_result (item : json) (p : processed) :
  extract_text_from_item item = Ok (Some p) →
  original p = item
  ∧ match p with
    | Paragraph text _ _ =>
        text ≠ "" ∧ Py.strip text = text ∧ Py.contains "paragraph" item = Ok true
    | Table data _ =>
        Py.contains "paragraph" item = Ok false ∧ Py.getitem item "table" = Ok data
    end.
Proof.
  unfold extract_text_from_item. intros H.
  apply bind_Ok_inv in H as ([] & Hpar & H).
  - apply bind_Ok_inv in H as (paragraph & Hget & H).
    apply bind_Ok_inv in H as ([] & Hels & H); [|done].
    apply bind_Ok_inv in H as (paragraph' & _ & H).
    apply bind_Ok_inv in H as (elements & _ & H).
    apply bind_Ok_inv in H as (text & _ & H).
    destruct (negb (Py.strip text =? "")%string) eqn:Hne; [|done].
    apply bind_Ok_inv in H as (paragraph'' & _ & H).
    apply bind_Ok_inv in H as (paragraph_style & _ & H).
    apply bind_Ok_inv in H as (style & _ & H).
    injection H as <-. simpl. repeat split; try done.
    + apply negb_true_iff in Hne. by apply String.eqb_neq in Hne.
    + apply strip_idempotent.
  - apply bind_Ok_inv in H as ([] & Htab & H); [|done].
    apply bind_Ok_inv in H as (data & Hget & H).
    injection H as <-. by simpl.
Qed.

Lemma extract_text_from_item_result_witness :
  original (Paragraph "Hello" (JStr "TITLE")
              (JObj [("paragraph",
                      JObj [("elements", JArr [text_run " Hello"; text_run "  "]);
                            ("paragraphStyle", JObj [("namedStyleType", JStr "TITLE")])]);
                     ("table", JNull)]))
  = JObj [("paragraph",
           JObj [("elements", JArr [text_run " Hello"; text_run "  "]);
                 ("paragraphStyle", JObj [("namedStyleType", JStr "TITLE")])]);
          ("table", JNull)]
  ∧ "Hello" ≠ "" ∧ Py.strip "Hello" = "Hello".
Proof.
  pose proof (extract_text_from_item_result
                (JObj [("paragraph",
                        JObj [("elements", JArr [text_run " Hello"; text_run "  "]);
                              ("paragraphStyle", JObj [("namedStyleType", JStr "TITLE")])]);
                       ("table", JNull)])
                (Paragraph "Hello" (JStr "TITLE")
                   (JObj [("paragraph",
                           JObj [("elements", JArr [text_run " Hello"; text_run "  "]);
                                 ("paragraphStyle",
                                  JObj [("namedStyleType", JStr "TITLE")])]);
                          ("table", JNull)]))
                eq_refl) as (Ho & Hne & Hstrip & _).
  by repeat split.
Defined.

(** X2.  An item that is not a dict never yields an element: a string or a
    list is dropped, or raises [TypeError] when it contains ["paragraph"] or
    ["table"] and is then subscripted; [None], a bool and a number raise
    [TypeError] at once. *)
Theorem extract_text_from_item_not_dict (item : json) :
  (∀ m, item ≠ JObj m) →
  extract_text_from_item item = Ok None ∨ extract_text_from_item item = Raise TypeError.
Proof.
  intros Hnd. unfold extract_text_from_item.
  destruct item as [| | |s|l|m]; simpl; try by right.
  - destruct (Py.substring_of "paragraph" s); simpl; [by right|].
    destruct (Py.substring_of "table" s); simpl; [by right | by left].
  - destruct (existsb _ l); simpl; [by right|].
    destruct (existsb _ l); simpl; [by right | by left].
  - by destruct (Hnd m).
Qed.

Lemma extract_text_from_item_not_dict_witness :
  extract_text_from_item (JStr "a table of contents") = Raise TypeError
  ∧ extract_text_from_item (JArr [JStr "x"; JNum 1]) = Ok None.
Proof.
  split.
  - destruct (extract_text_from_item_not_dict (JStr "a table of contents")) as [H|H];
      [done | discriminate H | exact H].
  - destruct (extract_text_from_item_not_dict (JArr [JStr "x"; JNum 1])) as [H|H];
      [done | exact H | discriminate H].
Defined.

Lemma for_each_app {A S : Type} (xs ys : list A) (s : S) (body : S → A → result S) :
  for_each (xs ++ ys) s body = (s' ← for_each xs s body; for_each ys s' body).
Proof.
  revert s; induction xs as [|x xs IH]; intros s; [reflexivity|].
  simpl. destruct (body s x) as [s'|e]; [apply IH | reflexivity].
Qed.

(** X3.  A text run without ["content"] makes the call raise [KeyError],
    and one whose content is not a string [TypeError]: the first element of
    the paragraph that is not well-formed in one of these ways decides,
    whatever comes after it and whatever else the item holds. *)
Theorem extract_text_from_item_bad_run (m paragraph e run : list (string * json))
    (good rest : list json) :
  Py.assoc "paragraph" m = Some (JObj paragraph) →
  Py.assoc "elements" paragraph = Some (JArr (good ++ JObj e :: rest)) →
  forallb wf_element good →
  Py.assoc "textRun" e = Some (JObj run) →
  (Py.assoc "content" run = None → extract_text_from_item (JObj m) = Raise KeyError)
  ∧ (∀ content, Py.assoc "content" run = Some content → (∀ s, content ≠ JStr s) →
       extract_text_from_item (JObj m) = Raise TypeError).
Proof.
  intros Hp He Hgood Hrun.
  assert (∀ r, add_text_run (paragraph_text good) (JObj e) = Raise r →
               extract_text_from_item (JObj m) = Raise r) as Hraise.
  { intros r Hr. unfold extract_text_from_item. py_eval.
    rewrite for_each_app, for_each_add_text_run by done.
    rewrite bind_Ok, append_empty_l, for_each_cons, Hr. done. }
  split.
  - intros Hcontent. apply Hraise. unfold add_text_run. by py_eval.
  - intros content Hcontent Hns. apply Hraise. unfold add_text_run. py_eval.
    destruct content; try done. by destruct (Hns s).
Qed.

Lemma extract_text_from_item_bad_run_witness :
  extract_text_from_item
    (JObj [("paragraph",
            JObj [("elements",
                   JArr [text_run "ok"; JObj [("textRun", JObj [("text", JStr "x")])];
                         text_run "never read"])])])
  = Raise KeyError.
Proof.
  apply (extract_text_from_item_bad_run _
           [("elements",
             JArr [text_run "ok"; JObj [("textRun", JObj [("text", JStr "x")])];
                   text_run "never read"])]
           [("textRun", JObj [("text", JStr "x")])] [("text", JStr "x")]
           [text_run "ok"] [text_run "never read"]); reflexivity.
Defined.

(** ** More on the table comparator *)

Lemma cell_records_nil (r c : nat) (text1 text2 : string) :
  cell_records r c text1 text2 = [] → text1 = text2.
Proof.
  unfold cell_records. destruct (decide (text1 = text2)); [done|].
  destruct (decide (text1 = "")), (decide (text2 = "")); simpl; try done. congruence.
Qed.

Lemma concat_imap_zip_nil {A B : Type} (f : nat → A * A → list B) (l1 l2 : list A) :
  length l1 = length l2 →
  (∀ i x y, f i (x, y) = [] → x = y) →
  concat (imap f (zip l1 l2)) = [] → l1 = l2.
Proof.
  revert f l2. induction l1 as [|x l1 IH]; intros f [|y l2] Hlen Hf H;
    simpl in *; try done.
  apply app_eq_nil in H as [Hhead Htail].
  f_equal; [by apply (Hf 0) | apply (IH (f ∘ S)); [lia | | done]].
  intros i x' y'. apply Hf.
Qed.

Lemma row_records_nil (r : nat) (row1 row2 : list string) :
  row_records r row1 row2 = [] → row1 = row2.
Proof.
  unfold row_records. destruct (decide (length row1 = length row2)); [|done].
  apply concat_imap_zip_nil; [done|]. intros c x y. apply cell_records_nil.
Qed.

(** X4.  On two tables whose cells can be read, [compare_tables] has
    nothing to report exactly when the tables have the same rows of cell
    texts. *)
Theorem compare_tables_empty (table1 table2 : json) (rows1 rows2 : list (list string)) :
  table_texts table1 = Ok rows1 → table_texts table2 = Ok rows2 →
  compare_tables table1 table2 = Ok [] ↔ rows1 = rows2.
Proof.
  intros H1 H2. rewrite (compare_tables_grids _ _ _ _ H1 H2). split.
  - intros [= H]. unfold compare_grids in H.
    destruct (decide (length rows1 = length rows2)); [|done].
    revert H. apply concat_imap_zip_nil; [done|].
    intros r x y. apply row_records_nil.
  - intros ->. by rewrite compare_grids_refl.
Qed.

Lemma compare_tables_empty_witness :
  compare_tables (table_data [["a"; ""]; ["b"]])
                 (JObj [("tableRows",
                         JArr [JObj [("tableCells", JArr [cell_item "a"; JObj []])];
                               row_item ["b"]])])
  = Ok [].
Proof.
  apply (compare_tables_empty _ _ [["a"; ""]; ["b"]] [["a"; ""]; ["b"]]);
    reflexivity.
Defined.

(** X5.  Every removed or added record of the table comparator is about a
    cell that both tables have at its row and cell index, where the two
    texts differ; it carries the text of its own side, which is not
    empty. *)
Theorem compare_tables_sound (table1 table2 : json) (rows1 rows2 : list (list string))
    (diffs : list table_diff) :
  table_texts table1 = Ok rows1 → table_texts table2 = Ok rows2 →
  compare_tables table1 table2 = Ok diffs →
  Forall (cell_diff_sound rows1 rows2) diffs.
Proof.
  intros H1 H2. rewrite (compare_tables_grids _ _ _ _ H1 H2). intros [= <-].
  unfold compare_grids.
  destruct (decide (length rows1 = length rows2)); [|by apply Forall_singleton].
  apply Forall_concat, Forall_forall. intros ds Hds.
  apply elem_of_lookup_imap in Hds as (r & [row1 row2] & -> & Hr).
  apply lookup_zip_with_Some in Hr as (? & ? & [= <- <-] & Hr1 & Hr2).
  unfold row_records.
  destruct (decide (length row1 = length row2)); [|by apply Forall_singleton].
  apply Forall_concat, Forall_forall. intros ds Hds.
  apply elem_of_lookup_imap in Hds as (c & [text1 text2] & -> & Hc).
  apply lookup_zip_with_Some in Hc as (? & ? & [= <- <-] & Hc1 & Hc2).
  unfold cell_records.
  destruct (decide (text1 = text2)); [constructor|].
  apply Forall_app. split.
  - destruct (decide (text1 = "")); [constructor|]. apply Forall_singleton.
    exists row1, row2, text1, text2. simpl. repeat split; try done. by left.
  - destruct (decide (text2 = "")); [constructor|]. apply Forall_singleton.
    exists row1, row2, text1, text2. simpl. repeat split; try done. by right.
Qed.

Lemma compare_tables_sound_witness :
  Forall (cell_diff_sound [["a"; "b"]; ["c"; ""]] [["a"; "x"]; [""; "d"]])
    [CellDiff "removed" "b" {| row := 0; cell := 1 |};
     CellDiff "added" "x" {| row := 0; cell := 1 |};
     CellDiff "removed" "c" {| row := 1; cell := 0 |};
     CellDiff "added" "d" {| row := 1; cell := 1 |}].
Proof.
  apply (compare_tables_sound (table_data [["a"; "b"]; ["c"; ""]])
                              (table_data [["a"; "x"]; [""; "d"]]));
    reflexivity.
Defined.

Lemma truthy_dict (k : string) (m : list (string * json)) (v : json) :
  Py.assoc k m = Some v → Py.truthy (JObj m) = true.
Proof. by destruct m. Qed.

Lemma truthy_list (l : list json) : l ≠ [] → Py.truthy (JArr l) = true.
Proof. by destruct l. Qed.

Lemma get_dict (k : string) (m : list (string * json)) :
  Py.get (JObj m) k = Ok (default JNull (Py.assoc k m)).
Proof. reflexivity. Qed.

(** In a cell, a well-formed element adds the content of its text run, as
    it does in a paragraph. *)
Lemma add_cell_run_wf (text : string) (element : json) :
  wf_element element →
  add_cell_run text element = Ok (text +:+ from_option id "" (run_content element)).
Proof.
  destruct element as [| | | |l|e]; try done.
  unfold add_cell_run, wf_element, run_content. rewrite get_dict.
  destruct (Py.assoc "textRun" e) as [[| | | | |run]|] eqn:Hrun; try done.
  - destruct (Py.assoc "content" run) as [[| | |s| |]|] eqn:Hcontent; try done.
    intros _. rewrite bind_Ok. cbn [default from_option id].
    rewrite (truthy_dict _ _ _ Hcontent). by py_eval.
  - intros _. simpl. by rewrite append_empty_r.
Qed.

Lemma for_each_add_cell_run (elements : list json) (text : string) :
  forallb wf_element elements →
  for_each elements text add_cell_run = Ok (text +:+ paragraph_text elements).
Proof.
  revert text; induction elements as [|element elements IH]; intros text Hwf.
  - simpl. by rewrite append_empty_r.
  - simpl in Hwf. apply andb_prop_elim in Hwf as [Hel Hels].
    rewrite for_each_cons, add_cell_run_wf, bind_Ok, IH by done.
    f_equal. rewrite append_assoc. f_equal.
    unfold paragraph_text. simpl.
    destruct (run_content element) as [s|]; [by rewrite concat_empty_cons | done].
Qed.

Lemma add_cell_content_wf (text : string) (content : json) :
  wf_content content →
  add_cell_content text content = Ok (text +:+ content_text content).
Proof.
  destruct content as [| | | | |c]; try done.
  unfold add_cell_content, wf_content, content_text, elements_of. rewrite get_dict.
  destruct (Py.assoc "paragraph" c) as [[| | | | |paragraph]|] eqn:Hp; try done.
  - rewrite bind_Ok. cbn [default from_option id].
    destruct (Py.assoc "elements" paragraph) as [[| | | |elements|]|] eqn:He; try done.
    + intros Hwf. rewrite (truthy_dict _ _ _ He). py_eval.
      destruct (decide (elements = [])) as [->|Hne]; [by rewrite append_empty_r|].
      fold (Py.truthy (JArr elements)). rewrite (truthy_list _ Hne).
      by apply for_each_add_cell_run.
    + intros _.
      assert ((if Py.truthy (JObj paragraph)
               then paragraph0 ← Py.getitem (JObj c) "paragraph";
                    elements ← Py.get paragraph0 "elements";
                    Ok (Py.truthy elements)
               else Ok false) = Ok false) as ->.
      { destruct (Py.truthy (JObj paragraph)); [|done]. by py_eval. }
      simpl. by rewrite append_empty_r.
  - intros _. simpl. by rewrite append_empty_r.
Qed.

Lemma for_each_add_cell_content (contents : list json) (text : string) :
  forallb wf_content contents →
  for_each contents text add_cell_content
  = Ok (text +:+ String.concat "" (content_text <$> contents)).
Proof.
  revert text; induction contents as [|content contents IH]; intros text Hwf.
  - simpl. by rewrite append_empty_r.
  - simpl in Hwf. apply andb_prop_elim in Hwf as [Hc Hcs].
    rewrite for_each_cons, add_cell_content_wf, bind_Ok, IH by done.
    rewrite fmap_cons, concat_empty_cons. by rewrite append_assoc.
Qed.

(** X6.  The text [compare_tables] reads off a well-formed cell is the
    concatenation, in order, of the texts of the paragraphs of its content,
    each the concatenation of the paragraph's text runs; a cell without
    content, or with none in it, has the empty text. *)
Theorem cell_text_wf (cell : json) :
  wf_cell cell →
  cell_text cell = Ok (String.concat "" (content_text <$> cell_contents cell)).
Proof.
  destruct cell as [| | | | |c]; try done.
  unfold cell_text, wf_cell, cell_contents. rewrite get_dict.
  destruct (Py.assoc "content" c) as [[| | | |contents|]|] eqn:Hc; try done.
  intros Hwf. rewrite bind_Ok. cbn [default from_option id].
  destruct (decide (contents = [])) as [->|Hne]; [done|].
  rewrite (truthy_list _ Hne). py_eval.
  rewrite for_each_add_cell_content by done. by rewrite append_empty_l.
Qed.

Lemma cell_text_wf_witness :
  cell_text
    (JObj [("content",
            JArr [JObj [("paragraph", JObj [("elements", JArr [text_run "a"; text_run "b"])])];
                  JObj [("startIndex", JNum 4)];
                  JObj [("paragraph", JObj [("elements", JArr [JObj []; text_run "c"])])]])])
  = Ok "abc".
Proof.
  apply (cell_text_wf
           (JObj [("content",
                   JArr [JObj [("paragraph",
                                JObj [("elements", JArr [text_run "a"; text_run "b"])])];
                         JObj [("startIndex", JNum 4)];
                         JObj [("paragraph",
                                JObj [("elements", JArr [JObj []; text_run "c"])])]])])).
  reflexivity.
Defined.

Lemma cell_records_mirror (r c : nat) (text1 text2 : string) :
  mirror <$> cell_records r c text1 text2 ≡ₚ cell_records r c text2 text1.
Proof.
  unfold cell_records.
  destruct (decide (text1 = text2)) as [->|Hne].
  - by rewrite decide_True.
  - rewrite (decide_False (P := text2 = text1)) by done.
    destruct (decide (text1 = "")), (decide (text2 = "")); simpl; try done.
    apply Permutation_swap.
Qed.

Lemma concat_imap_zip_mirror {A : Type} (f g : nat → A * A → list table_diff)
    (l1 l2 : list A) :
  (∀ i x y, mirror <$> f i (x, y) ≡ₚ g i (y, x)) →
  mirror <$> concat (imap f (zip l1 l2)) ≡ₚ concat (imap g (zip l2 l1)).
Proof.
  revert f g l2. induction l1 as [|x l1 IH]; intros f g [|y l2] Hfg; simpl; try done.
  rewrite fmap_app. apply Permutation_app; [apply Hfg|].
  apply IH. intros i x' y'. apply Hfg.
Qed.

Lemma row_records_mirror (r : nat) (row1 row2 : list string) :
  mirror <$> row_records r row1 row2 ≡ₚ row_records r row2 row1.
Proof.
  unfold row_records.
  destruct (decide (length row1 = length row2)) as [Heq|Hne].
  - rewrite decide_True by done.
    apply concat_imap_zip_mirror. intros c x y. apply cell_records_mirror.
  - by rewrite decide_False by done.
Qed.

(** X7.  Exchanging the two tables exchanges removed and added: the records
    of [compare_tables table2 table1] are those of
    [compare_tables table1 table2] with the two types exchanged, up to the
    order of the two records of one cell; structure records are the
    same. *)
Theorem compare_tables_mirror (table1 table2 : json) (rows1 rows2 : list (list string)) :
  table_texts table1 = Ok rows1 → table_texts table2 = Ok rows2 →
  ∃ diffs12 diffs21,
    compare_tables table1 table2 = Ok diffs12
    ∧ compare_tables table2 table1 = Ok diffs21
    ∧ mirror <$> diffs12 ≡ₚ diffs21.
Proof.
  intros H1 H2. exists (compare_grids rows1 rows2), (compare_grids rows2 rows1).
  split; [by apply compare_tables_grids|]. split; [by apply compare_tables_grids|].
  unfold compare_grids.
  destruct (decide (length rows1 = length rows2)) as [Heq|Hne].
  - rewrite decide_True by done.
    apply concat_imap_zip_mirror. intros r x y. apply row_records_mirror.
  - by rewrite decide_False by done.
Qed.

Lemma compare_tables_mirror_witness :
  ∃ diffs12 diffs21,
    compare_tables (table_data [["a"; "b"]; ["c"]]) (table_data [["a"; "x"]; ["c"; "d"]])
    = Ok diffs12
    ∧ compare_tables (table_data [["a"; "x"]; ["c"; "d"]]) (table_data [["a"; "b"]; ["c"]])
      = Ok diffs21
    ∧ mirror <$> diffs12 ≡ₚ diffs21.
Proof.
  apply (compare_tables_mirror _ _ [["a"; "b"]; ["c"]] [["a"; "x"]; ["c"; "d"]]);
    reflexivity.
Defined.

(** ** More on the diff engine *)

Lemma for_each_ext {A S : Type} (xs : list A) (s : S) (body body' : S → A → result S) :
  (∀ s x, body s x = body' s x) → for_each xs s body = for_each xs s body'.
Proof.
  intros Hext. revert s. induction xs as [|x xs IH]; intros s; [reflexivity|].
  rewrite !for_each_cons, Hext. destruct (body' s x); [apply IH | reflexivity].
Qed.

(** A loop that returns has run its body on every element. *)
Lemma for_each_Ok_all {A S : Type} (Q : A → Prop) (xs : list A) (s s' : S)
    (body : S → A → result S) :
  (∀ s x s', body s x = Ok s' → Q x) →
  for_each xs s body = Ok s' → Forall Q xs.
Proof.
  intros Hbody. revert s. induction xs as [|x xs IH]; intros s H; [constructor|].
  rewrite for_each_cons in H. apply bind_Ok_inv in H as (s1 & H1 & H2).
  constructor; [by eapply Hbody | by eapply IH].
Qed.

Lemma normalized_exists (items : list json) :
  Forall (λ item, ∃ o, extract_text_from_item item = Ok o) items →
  ∃ outputs, normalized items outputs.
Proof.
  induction 1 as [|item items [o Ho] _ [outputs IH]].
  - exists []. constructor.
  - exists (o :: outputs). by constructor.
Qed.

(** X8.  [diff_content] returns only if every item of both sequences
    normalizes without an exception: an item that makes
    [extract_text_from_item] raise, anywhere in [content1] or [content2],
    makes the whole call raise, and no partial list is returned. *)
Theorem diff_content_all_normalize (content1 content2 : list json)
    (diffs : list diff_record) :
  diff_content content1 content2 = Ok diffs →
  (∃ outputs1, normalized content1 outputs1) ∧ (∃ outputs2, normalized content2 outputs2).
Proof.
  unfold diff_content. intros H.
  apply bind_Ok_inv in H as (diffs1 & H1 & H2). split; apply normalized_exists.
  - revert H1. apply for_each_Ok_all. intros s item s' Hstep.
    unfold forward_step in Hstep. apply bind_Ok_inv in Hstep as (o & Ho & _). eauto.
  - revert H2. apply for_each_Ok_all. intros s item s' Hstep.
    unfold backward_step in Hstep. apply bind_Ok_inv in Hstep as (o & Ho & _). eauto.
Qed.

Lemma diff_content_all_normalize_witness :
  (∃ outputs1, normalized [paragraph_item ["A"]; JObj []] outputs1)
  ∧ (∃ outputs2, normalized [table_item [["x"]]; paragraph_item [" "]] outputs2).
Proof.
  apply (diff_content_all_normalize
           [paragraph_item ["A"]; JObj []] [table_item [["x"]]; paragraph_item [" "]]
           [removed (plain "A");
            added (Table (table_data [["x"]]) (table_item [["x"]]))]).
  reflexivity.
Defined.

Lemma for_each_total {A S : Type} (xs : list A) (s : S) (body : S → A → result S) :
  (∀ s x, x ∈ xs → ∃ s', body s x = Ok s') → ∃ s', for_each xs s body = Ok s'.
Proof.
  revert s. induction xs as [|x xs IH]; intros s Hbody; [by eexists|].
  destruct (Hbody s x) as [s1 H1]; [left|].
  rewrite for_each_cons, H1, bind_Ok. apply IH. intros; apply Hbody; by right.
Qed.

Lemma find_match_total (processed1 : processed) (items : list json)
    (outputs : list (option processed)) (diffs : list diff_record) :
  readable (Some processed1) → normalized items outputs → Forall readable outputs →
  ∃ r, find_match processed1 items diffs = Ok r.
Proof.
  intros H1 Hnorm. induction Hnorm as [|item o items outputs Hitem _ IH];
    intros Hall; [by eexists|].
  apply Forall_cons in Hall as [Ho Hall]. simpl. rewrite Hitem. simpl.
  destruct o as [processed2|]; [|by apply IH].
  destruct processed1 as [text1 ? ?|data1 ?], processed2 as [text2 ? ?|data2 ?];
    simpl in *; try by apply IH.
  - by eexists.
  - destruct H1 as [rows1 H1], Ho as [rows2 H2].
    rewrite (compare_tables_grids _ _ _ _ H1 H2). by eexists.
Qed.

Lemma found_in_total (processed2 : processed) (items : list json)
    (outputs : list (option processed)) :
  readable (Some processed2) → normalized items outputs → Forall readable outputs →
  ∃ r, found_in processed2 items = Ok r.
Proof.
  intros H2 Hnorm. induction Hnorm as [|item o items outputs Hitem _ IH];
    intros Hall; [by eexists|].
  apply Forall_cons in Hall as [Ho Hall]. simpl. rewrite Hitem. simpl.
  destruct o as [processed1|]; [|by apply IH].
  destruct processed1 as [text1 ? ?|data1 ?], processed2 as [text2 ? ?|data2 ?];
    simpl in *; try by apply IH.
  - destruct (text1 =? text2)%string; [by eexists | by apply IH].
  - destruct Ho as [rows1 H1], H2 as [rows2 H2].
    rewrite (table_texts_len _ _ H1), (table_texts_len _ _ H2). simpl.
    destruct (length rows1 =? length rows2); [by eexists | by apply IH].
Qed.

(** X9.  [diff_content] never raises on sequences whose items all normalize
    and whose tables can all be read: in particular on sequences without
    tables, the only exceptions are those of [extract_text_from_item]. *)
Theorem diff_content_total (content1 content2 : list json)
    (outputs1 outputs2 : list (option processed)) :
  normalized content1 outputs1 → normalized content2 outputs2 →
  Forall readable outputs1 → Forall readable outputs2 →
  ∃ diffs, diff_content content1 content2 = Ok diffs.
Proof.
  intros Hn1 Hn2 Hr1 Hr2. unfold diff_content.
  destruct (for_each_total content1 [] (forward_step content2)) as [diffs1 ->].
  { intros s item Hin. unfold forward_step.
    apply list_elem_of_lookup in Hin as [i Hi].
    destruct (Forall2_lookup_l _ _ _ _ _ Hn1 Hi) as (o & Ho & ->). rewrite bind_Ok.
    destruct o as [p|]; [|by eexists].
    destruct (find_match_total p content2 outputs2 s) as [[found diffs] ->]; try done.
    - by apply (Forall_lookup_1 _ _ _ _ Hr1 Ho).
    - rewrite bind_Ok. destruct found; by eexists. }
  rewrite bind_Ok. apply for_each_total.
  intros s item Hin. unfold backward_step.
  apply list_elem_of_lookup in Hin as [i Hi].
  destruct (Forall2_lookup_l _ _ _ _ _ Hn2 Hi) as (o & Ho & ->). rewrite bind_Ok.
  destruct o as [p|]; [|by eexists].
  destruct (found_in_total p content1 outputs1) as [found ->]; try done.
  - by apply (Forall_lookup_1 _ _ _ _ Hr2 Ho).
  - rewrite bind_Ok. destruct found; by eexists.
Qed.

Lemma diff_content_total_witness :
  ∃ diffs,
    diff_content [paragraph_item ["A"]; table_item [["x"]; ["y"]]]
                 [table_item [["x"; "z"]; ["y"]]; JObj []; paragraph_item ["B"]]
    = Ok diffs.
Proof.
  apply (diff_content_total _ _
           [Some (plain "A");
            Some (Table (table_data [["x"]; ["y"]]) (table_item [["x"]; ["y"]]))]
           [Some (Table (table_data [["x"; "z"]; ["y"]]) (table_item [["x"; "z"]; ["y"]]));
            None; Some (plain "B")]).
  - repeat constructor.
  - repeat constructor.
  - repeat constructor. by exists [["x"]; ["y"]].
  - repeat constructor. by exists [["x"; "z"]; ["y"]].
Defined.

(** Without an element of its type to be compared with, the inner loops
    come back empty-handed. *)
Lemma find_match_no_type (processed1 : processed) (items : list json)
    (outputs : list (option processed)) (diffs : list diff_record) :
  normalized items outputs →
  (∀ p2, Some p2 ∈ outputs → processed_type processed1 ≠ processed_type p2) →
  find_match processed1 items diffs = Ok (false, diffs).
Proof.
  intros Hnorm. induction Hnorm as [|item o items outputs Hitem _ IH];
    intros Hno; [reflexivity|].
  simpl. rewrite Hitem. simpl.
  assert (∀ p2, Some p2 ∈ outputs → processed_type processed1 ≠ processed_type p2)
    as Hno' by (intros; apply Hno; by right).
  destruct o as [processed2|]; [|by apply IH].
  specialize (Hno processed2 ltac:(left)).
  destruct processed1, processed2; simpl in *; try done; by apply IH.
Qed.

Lemma found_in_no_type (processed2 : processed) (items : list json)
    (outputs : list (option processed)) :
  normalized items outputs →
  (∀ p1, Some p1 ∈ outputs → processed_type p1 ≠ processed_type processed2) →
  found_in processed2 items = Ok false.
Proof.
  intros Hnorm. induction Hnorm as [|item o items outputs Hitem _ IH];
    intros Hno; [reflexivity|].
  simpl. rewrite Hitem. simpl.
  assert (∀ p1, Some p1 ∈ outputs → processed_type p1 ≠ processed_type processed2)
    as Hno' by (intros; apply Hno; by right).
  destruct o as [processed1|]; [|by apply IH].
  specialize (Hno processed1 ltac:(left)).
  destruct processed1, processed2; simpl in *; try done; by apply IH.
Qed.

Lemma forward_pass_no_type (content2 : list json) (outputs2 : list (option processed))
    (items : list json) (outputs : list (option processed)) (diffs : list diff_record) :
  normalized content2 outputs2 → normalized items outputs →
  (∀ p1 p2, Some p1 ∈ outputs → Some p2 ∈ outputs2 →
            processed_type p1 ≠ processed_type p2) →
  for_each items diffs (forward_step content2)
  = Ok (diffs ++ (removed <$> kept_elements outputs)).
Proof.
  intros Hn2 Hnorm. revert diffs.
  induction Hnorm as [|item o items outputs Hitem _ IH]; intros diffs Hno.
  - simpl. by rewrite app_nil_r.
  - rewrite for_each_cons. unfold forward_step at 2. rewrite Hitem, bind_Ok.
    assert (∀ p1 p2, Some p1 ∈ outputs → Some p2 ∈ outputs2 →
                     processed_type p1 ≠ processed_type p2) as Hno'.
    { intros p1 p2 H1. apply Hno. by right. }
    destruct o as [p|].
    + rewrite (find_match_no_type p content2 outputs2 diffs Hn2).
      * rewrite !bind_Ok, IH by done. unfold kept_elements. simpl.
        by rewrite <- app_assoc.
      * intros p2. apply Hno. left.
    + rewrite bind_Ok, IH by done. done.
Qed.

Lemma backward_pass_no_type (content1 : list json) (outputs1 : list (option processed))
    (items : list json) (outputs : list (option processed)) (diffs : list diff_record) :
  normalized content1 outputs1 → normalized items outputs →
  (∀ p1 p2, Some p1 ∈ outputs1 → Some p2 ∈ outputs →
            processed_type p1 ≠ processed_type p2) →
  for_each items diffs (backward_step content1)
  = Ok (diffs ++ (added <$> kept_elements outputs)).
Proof.
  intros Hn1 Hnorm. revert diffs.
  induction Hnorm as [|item o items outputs Hitem _ IH]; intros diffs Hno.
  - simpl. by rewrite app_nil_r.
  - rewrite for_each_cons. unfold backward_step at 2. rewrite Hitem, bind_Ok.
    assert (∀ p1 p2, Some p1 ∈ outputs1 → Some p2 ∈ outputs →
                     processed_type p1 ≠ processed_type p2) as Hno'.
    { intros p1 p2 H1 H2. apply Hno; [done | by right]. }
    destruct o as [p|].
    + rewrite (found_in_no_type p content1 outputs1 Hn1).
      * rewrite !bind_Ok, IH by done. unfold kept_elements. simpl.
        by rewrite <- app_assoc.
      * intros p1 H1. apply Hno; [done | left].
    + rewrite bind_Ok, IH by done. done.
Qed.

(** X10.  When no element of [content1] has the type of an element of
    [content2] (paragraphs against tables, or one of the two without any
    element), nothing is matched: the result is a removed record for every
    element of [content1], in order, followed by an added record for every
    element of [content2], in order. *)
Theorem diff_content_no_common_type (content1 content2 : list json)
    (outputs1 outputs2 : list (option processed)) :
  normalized content1 outputs1 → normalized content2 outputs2 →
  (∀ p1 p2, Some p1 ∈ outputs1 → Some p2 ∈ outputs2 →
            processed_type p1 ≠ processed_type p2) →
  diff_content content1 content2
  = Ok ((removed <$> kept_elements outputs1) ++ (added <$> kept_elements outputs2)).
Proof.
  intros Hn1 Hn2 Hno. unfold diff_content.
  rewrite (forward_pass_no_type content2 outputs2 content1 outputs1 [] Hn2 Hn1 Hno).
  rewrite bind_Ok.
  by rewrite (backward_pass_no_type content1 outputs1 content2 outputs2 _ Hn1 Hn2 Hno).
Qed.

Lemma diff_content_no_common_type_witness :
  diff_content [paragraph_item ["A"]; JObj []; paragraph_item ["B"]]
               [table_item [["x"]]]
  = Ok [removed (plain "A"); removed (plain "B");
        added (Table (table_data [["x"]]) (table_item [["x"]]))].
Proof.
  apply (diff_content_no_common_type _ _
           [Some (plain "A"); None; Some (plain "B")]
           [Some (Table (table_data [["x"]]) (table_item [["x"]]))]).
  - repeat constructor.
  - repeat constructor.
  - intros p1 p2 H1 H2.
    apply list_elem_of_singleton in H2. injection H2 as ->.
    rewrite !elem_of_cons in H1.
    destruct H1 as [[= ->]|[?|[[= ->]|?%elem_of_nil]]]; done.
Defined.

Lemma find_match_skip (processed1 : processed) (item : json) (items items' : list json)
    (diffs : list diff_record) :
  extract_text_from_item item = Ok None →
  find_match processed1 (items ++ item :: items') diffs
  = find_match processed1 (items ++ items') diffs.
Proof.
  intros Hitem. induction items as [|item2 items IH]; simpl.
  - by rewrite Hitem.
  - destruct (extract_text_from_item item2) as [[processed2|]|e]; simpl; try done.
    destruct processed1, processed2; try done.
Qed.

Lemma found_in_skip (processed2 : processed) (item : json) (items items' : list json) :
  extract_text_from_item item = Ok None →
  found_in processed2 (items ++ item :: items') = found_in processed2 (items ++ items').
Proof.
  intros Hitem. induction items as [|item1 items IH]; simpl.
  - by rewrite Hitem.
  - destruct (extract_text_from_item item1) as [[processed1|]|e]; simpl; try done.
    destruct processed1, processed2; try done; by rewrite IH.
Qed.

(** X11.  An item that normalizes to nothing is invisible: putting it
    anywhere into [content1] or into [content2] changes neither the records
    nor an exception of the call. *)
Theorem diff_content_skips_dropped (item : json) (before after other : list json) :
  extract_text_from_item item = Ok None →
  diff_content (before ++ item :: after) other = diff_content (before ++ after) other
  ∧ diff_content other (before ++ item :: after) = diff_content other (before ++ after).
Proof.
  intros Hitem.
  assert (∀ content diffs, forward_step content diffs item = Ok diffs) as Hfwd.
  { intros. unfold forward_step. by rewrite Hitem. }
  assert (∀ content diffs, backward_step content diffs item = Ok diffs) as Hbwd.
  { intros. unfold backward_step. by rewrite Hitem. }
  unfold diff_content. split.
  - rewrite !for_each_app.
    destruct (for_each before [] (forward_step other)) as [diffs|e]; [|done].
    rewrite !bind_Ok, for_each_cons, Hfwd, bind_Ok.
    destruct (for_each after diffs (forward_step other)) as [diffs'|e]; [|done].
    rewrite !bind_Ok. apply for_each_ext. intros s item2. unfold backward_step.
    destruct (extract_text_from_item item2) as [[p|]|e]; try done.
    rewrite !bind_Ok. by rewrite found_in_skip.
  - rewrite (for_each_ext other [] (forward_step (before ++ item :: after))
               (forward_step (before ++ after))).
    + destruct (for_each other [] _) as [diffs|e]; [|done].
      rewrite !bind_Ok, !for_each_app.
      destruct (for_each before diffs (backward_step other)) as [diffs'|e]; [|done].
      by rewrite !bind_Ok, for_each_cons, Hbwd, bind_Ok.
    + intros s item1. unfold forward_step.
      destruct (extract_text_from_item item1) as [[p|]|e]; try done.
      rewrite !bind_Ok. by rewrite find_match_skip.
Qed.

Lemma diff_content_skips_dropped_witness :
  diff_content [paragraph_item ["A"]; paragraph_item ["  "]; table_item [["x"]]]
               [paragraph_item ["B"]]
  = diff_content [paragraph_item ["A"]; table_item [["x"]]] [paragraph_item ["B"]].
Proof.
  apply (diff_content_skips_dropped (paragraph_item ["  "]) [paragraph_item ["A"]]
           [table_item [["x"]]] [paragraph_item ["B"]]).
  reflexivity.
Defined.

Lemma find_match_first (p0 p1 : processed) (items : list json)
    (outputs : list (option processed)) (rest : list processed)
    (diffs : list diff_record) :
  is_paragraph p0 → is_paragraph p1 →
  normalized items outputs → kept_elements outputs = p0 :: rest →
  find_match p1 items diffs = Ok (true, diffs ++ first_match_records p0 p1).
Proof.
  intros H0 H1 Hnorm. induction Hnorm as [|item o items outputs Hitem _ IH];
    intros Hkept; [done|].
  simpl. rewrite Hitem. simpl. destruct o as [p|].
  - injection Hkept as -> _. destruct p0, p1; try done. simpl.
    unfold first_match_records. simpl.
    destruct (decide (text0 = text)) as [->|Hne].
    + by rewrite String.eqb_refl, app_nil_r.
    + by apply String.eqb_neq in Hne as ->.
  - by apply IH.
Qed.

Lemma found_in_paragraphs (p2 : processed) (items : list json)
    (outputs : list (option processed)) :
  is_paragraph p2 → normalized items outputs →
  Forall is_paragraph (kept_elements outputs) →
  found_in p2 items = Ok (bool_decide (text_of p2 ∈ text_of <$> kept_elements outputs)).
Proof.
  intros H2 Hnorm. induction Hnorm as [|item o items outputs Hitem _ IH];
    intros Hall; [done|].
  simpl. rewrite Hitem. simpl. destruct o as [p1|]; [|by apply IH].
  unfold kept_elements in Hall. simpl in Hall.
  apply Forall_cons in Hall as [H1 Hall]. destruct p1, p2; try done. simpl.
  unfold kept_elements. simpl.
  destruct (decide (text = text0)) as [->|Hne].
  - rewrite String.eqb_refl. f_equal. symmetry. apply bool_decide_eq_true_2. left.
  - apply String.eqb_neq in Hne as Hneb. rewrite Hneb, IH by done. simpl. f_equal.
    apply bool_decide_ext. unfold kept_elements. rewrite elem_of_cons.
    split; [by right | by intros [?|?]].
Qed.

(** X17.  On two sequences without tables, where [p0] is the first paragraph
    of [content2]: the first pass reports every paragraph of [content1]
    whose text is not that of [p0] as removed, each time with [p0] as
    added, and the second pass then reports as added every paragraph of
    [content2] whose text is the text of no paragraph of [content1]. *)
Theorem diff_content_paragraphs (content1 content2 : list json)
    (outputs1 outputs2 : list (option processed)) (p0 : processed)
    (rest : list processed) :
  normalized content1 outputs1 → normalized content2 outputs2 →
  Forall is_paragraph (kept_elements outputs1) →
  Forall is_paragraph (kept_elements outputs2) →
  kept_elements outputs2 = p0 :: rest →
  diff_content content1 content2
  = Ok (concat (first_match_records p0 <$> kept_elements outputs1)
        ++ (added <$> filter (λ p2, text_of p2 ∉ text_of <$> kept_elements outputs1)
                             (kept_elements outputs2))).
Proof.
  intros Hn1 Hn2 Hp1 Hp2 Hfirst. unfold diff_content.
  assert (is_paragraph p0) as H0.
  { rewrite Hfirst in Hp2. by apply Forall_cons in Hp2 as [? _]. }
  assert (∀ items outputs diffs,
            normalized items outputs → Forall is_paragraph (kept_elements outputs) →
            for_each items diffs (forward_step content2)
            = Ok (diffs ++ concat (first_match_records p0 <$> kept_elements outputs)))
    as Hforward.
  { intros items outputs diffs Hnorm. revert diffs.
    induction Hnorm as [|item o items outputs Hitem _ IH]; intros diffs Hall.
    - simpl. by rewrite app_nil_r.
    - rewrite for_each_cons. unfold forward_step at 2. rewrite Hitem, bind_Ok.
      destruct o as [p1|]; [|rewrite bind_Ok; by apply IH].
      unfold kept_elements in Hall. simpl in Hall.
      apply Forall_cons in Hall as [H1 Hall].
      rewrite (find_match_first p0 p1 content2 outputs2 rest diffs H0 H1 Hn2 Hfirst).
      rewrite !bind_Ok, IH by done. unfold kept_elements. simpl.
      by rewrite app_assoc. }
  assert (∀ items outputs diffs,
            normalized items outputs → Forall is_paragraph (kept_elements outputs) →
            for_each items diffs (backward_step content1)
            = Ok (diffs ++ (added <$> filter (λ p2, text_of p2
                                                    ∉ text_of <$> kept_elements outputs1)
                                             (kept_elements outputs))))
    as Hbackward.
  { intros items outputs diffs Hnorm. revert diffs.
    induction Hnorm as [|item o items outputs Hitem _ IH]; intros diffs Hall.
    - simpl. by rewrite app_nil_r.
    - rewrite for_each_cons. unfold backward_step at 2. rewrite Hitem, bind_Ok.
      destruct o as [p2|]; [|rewrite bind_Ok; by apply IH].
      unfold kept_elements in Hall. simpl in Hall.
      apply Forall_cons in Hall as [H2 Hall].
      rewrite (found_in_paragraphs p2 content1 outputs1 H2 Hn1 Hp1), bind_Ok.
      unfold kept_elements at 2. simpl. rewrite filter_cons.
      destruct (decide (text_of p2 ∈ text_of <$> kept_elements outputs1)) as [Hin|Hnin].
      + rewrite bool_decide_eq_true_2 by done.
        rewrite decide_False by (by intros ?). rewrite bind_Ok. by apply IH.
      + rewrite bool_decide_eq_false_2 by done.
        rewrite decide_True by done. rewrite bind_Ok, IH by done. simpl.
        by rewrite <- app_assoc. }
  rewrite (Hforward content1 outputs1 [] Hn1 Hp1), bind_Ok.
  by rewrite (Hbackward content2 outputs2 _ Hn2 Hp2).
Qed.

Lemma diff_content_paragraphs_witness :
  diff_content [paragraph_item ["A"]; paragraph_item ["B"]; paragraph_item ["C"]]
               [paragraph_item ["B"]; JObj []; paragraph_item ["D"]]
  = Ok [removed (plain "A"); added (plain "B");
        removed (plain "C"); added (plain "B");
        added (plain "D")].
Proof.
  apply (diff_content_paragraphs _ _
           [Some (plain "A"); Some (plain "B"); Some (plain "C")]
           [Some (plain "B"); None; Some (plain "D")] (plain "B") [plain "D"]).
  - repeat constructor.
  - repeat constructor.
  - repeat constructor.
  - repeat constructor.
  - reflexivity.
Defined.

(** ** More on the text span differ *)

Lemma str_length (s : string) : length (str s) = String.length s.
Proof. unfold str. induction s as [|c s IH]; simpl; congruence. Qed.

Lemma substring_length (s : string) (n m : nat) :
  n + m ≤ String.length s → String.length (String.substring n m s) = m.
Proof.
  revert n m. induction s as [|c s IH]; intros n m Hlen; simpl in *.
  - destruct n, m; simpl; lia.
  - destruct n as [|n].
    + destruct m as [|m]; simpl; [done|]. rewrite (IH 0 m); lia.
    + apply IH. lia.
Qed.

Lemma substring_all (s : string) : String.substring 0 (String.length s) s = s.
Proof. induction s as [|c s IH]; simpl; congruence. Qed.

Section Bounds.
Variables a b : list Ascii.ascii.

Lemma matching_loop_bounded (fuel : nat) (queue : list (nat * nat * nat * nat))
    (matching_blocks result : list Difflib.block) :
  Forall (range_in (length a) (length b)) queue →
  Forall (block_bounded (length a) (length b)) matching_blocks →
  Difflib.matching_loop a b fuel queue matching_blocks = Some result →
  Forall (block_bounded (length a) (length b)) result.
Proof.
  revert queue matching_blocks.
  induction fuel as [|fuel IH]; intros queue matching_blocks Hq Hmb H.
  - destruct queue as [|[[[alo ahi] blo] bhi] queue]; simpl in H; [|done].
    by injection H as <-.
  - destruct queue as [|[[[alo ahi] blo] bhi] queue]; simpl in H.
    { by injection H as <-. }
    apply Forall_cons in Hq as [[Ha Hb] Hq].
    pose proof (find_longest_match_in a b alo ahi blo bhi ltac:(lia) ltac:(lia)) as Hin.
    destruct (Difflib.find_longest_match a b alo ahi blo bhi) as [[i j] k].
    simpl in Hin.
    destruct (k =? 0); simpl in H; [by eapply IH|].
    revert H. apply IH.
    + destruct ((alo <? i) && (blo <? j)), ((i + k <? ahi) && (j + k <? bhi));
        repeat (apply Forall_cons; split); try done; simpl; lia.
    + apply Forall_app. split; [done|]. apply Forall_singleton. simpl. lia.
Qed.

Lemma collapse_bounded (blocks : list Difflib.block) (st : Difflib.block * list Difflib.block) :
  Forall (block_bounded (length a) (length b)) blocks →
  block_bounded (length a) (length b) st.1 →
  Forall (block_bounded (length a) (length b)) st.2 →
  block_bounded (length a) (length b) (foldl Difflib.collapse st blocks).1
  ∧ Forall (block_bounded (length a) (length b)) (foldl Difflib.collapse st blocks).2.
Proof.
  revert st. induction blocks as [|[[i2 j2] k2] blocks IH];
    intros [[[i1 j1] k1] non_adjacent] Hblocks H1 Hna; [done|].
  apply Forall_cons in Hblocks as [H2 Hblocks]. simpl in *.
  destruct ((i1 + k1 =? i2) && (j1 + k1 =? j2)) eqn:Hadj.
  - apply andb_prop in Hadj as [Hi%Nat.eqb_eq Hj%Nat.eqb_eq].
    apply IH; simpl; try done. lia.
  - apply IH; simpl; try done.
    destruct (negb (k1 =? 0)); [|done].
    apply Forall_app. split; [done|]. by apply Forall_singleton.
Qed.

Lemma get_matching_blocks_bounded (blocks : list Difflib.block) :
  Difflib.get_matching_blocks a b = Some blocks →
  Forall (block_bounded (length a) (length b)) blocks.
Proof.
  unfold Difflib.get_matching_blocks. intros H.
  destruct (Difflib.matching_loop a b _ _ _) as [found|] eqn:Hloop; [|done].
  simpl in H.
  apply matching_loop_bounded in Hloop; [| |constructor].
  - pose proof (collapse_bounded (merge_sort Difflib.block_le found) ((0, 0, 0), [])) as Hc.
    destruct (foldl Difflib.collapse _ _) as [[[i1 j1] k1] non_adjacent].
    injection H as <-.
    destruct Hc as [H1 Hna].
    + by rewrite merge_sort_Permutation.
    + simpl. lia.
    + constructor.
    + apply Forall_app. split; [|apply Forall_singleton; simpl; lia].
      destruct (negb (k1 =? 0)); [|done].
      apply Forall_app. split; [done|]. by apply Forall_singleton.
  - apply Forall_singleton. simpl. lia.
Qed.

Lemma opcode_step_bounded (blocks : list Difflib.block) (st : nat * nat * list Difflib.opcode) :
  Forall (block_bounded (length a) (length b)) blocks →
  Forall (opcode_bounded (length a) (length b)) st.2 →
  Forall (opcode_bounded (length a) (length b)) (foldl Difflib.opcode_step st blocks).2.
Proof.
  revert st. induction blocks as [|[[ai bj] size] blocks IH];
    intros [[i j] answer] Hblocks Hans; [done|].
  apply Forall_cons in Hblocks as [[Ha Hb] Hblocks]. simpl in *.
  apply IH; [done|]. simpl.
  assert (Forall (opcode_bounded (length a) (length b))
            (match
               (if (i <? ai) && (j <? bj) then Some Difflib.Replace
                else if i <? ai then Some Difflib.Delete
                     else if j <? bj then Some Difflib.Insert else None)
             with
             | Some t => answer ++ [Difflib.Build_opcode t i ai j bj]
             | None => answer
             end)) as Hans'.
  { destruct (i <? ai) eqn:Hi, (j <? bj) eqn:Hj; simpl; try done;
      apply Forall_app; (split; [done|]); apply Forall_singleton;
      unfold opcode_bounded; simpl;
      try apply Nat.ltb_lt in Hi; try apply Nat.ltb_lt in Hj; lia. }
  destruct (negb (size =? 0)); [|done].
  apply Forall_app. split; [done|]. by apply Forall_singleton.
Qed.

(** The opcodes that change something do so on ranges that are not empty
    and lie inside the sequences. *)
Lemma get_opcodes_bounded (opcodes : list Difflib.opcode) :
  Difflib.get_opcodes a b = Some opcodes →
  Forall (opcode_bounded (length a) (length b)) opcodes.
Proof.
  unfold Difflib.get_opcodes. intros H.
  destruct (Difflib.get_matching_blocks a b) as [blocks|] eqn:Hblocks; [|done].
  injection H as <-.
  apply (opcode_step_bounded blocks (0, 0, [])); [|constructor].
  by apply get_matching_blocks_bounded.
Qed.

End Bounds.

Lemma removed_span_ok (old new : string) (i1 i2 : nat) :
  i1 < i2 ≤ String.length old → span_ok old new (removed_span old i1 i2).
Proof.
  intros H. unfold span_ok, removed_span. simpl. repeat split; [lia| |by left; repeat split; lia].
  unfold Py.slice. apply substring_length. lia.
Qed.

Lemma added_span_ok (old new : string) (j1 j2 : nat) :
  j1 < j2 ≤ String.length new → span_ok old new (added_span new j1 j2).
Proof.
  intros H. unfold span_ok, added_span. simpl. repeat split; [lia| |by right; repeat split; lia].
  unfold Py.slice. apply substring_length. lia.
Qed.

(** X12.  Every record of [compare_text_content] is a removed span of the
    first text or an added span of the second, with a range that is not
    empty and does not pass the end of its text, and with exactly the
    characters of that range as its text. *)
Theorem compare_text_content_spans (old new : string) (spans : list span) :
  compare_text_content old new = Some spans → Forall (span_ok old new) spans.
Proof.
  unfold compare_text_content. intros H.
  destruct (Difflib.get_opcodes _ _) as [opcodes|] eqn:Hop; [|done].
  injection H as <-. rewrite span_loop_records. simpl.
  apply get_opcodes_bounded in Hop. fold (str old) (str new) in Hop.
  rewrite !str_length in Hop.
  apply Forall_concat, Forall_fmap. eapply Forall_impl; [exact Hop|].
  intros [[] i1 i2 j1 j2]; unfold opcode_bounded, span_records; simpl; intros Hb.
  - destruct Hb. constructor; [by apply removed_span_ok|].
    apply Forall_singleton. by apply added_span_ok.
  - apply Forall_singleton. by apply removed_span_ok.
  - apply Forall_singleton. by apply added_span_ok.
  - constructor.
Qed.

Lemma compare_text_content_spans_witness :
  Forall (span_ok "qabxcd" "abycdf")
    [removed_span "qabxcd" 0 1; removed_span "qabxcd" 3 4;
     added_span "abycdf" 2 3; added_span "abycdf" 5 6].
Proof.
  apply (compare_text_content_spans "qabxcd" "abycdf"). by vm_compute.
Defined.

Lemma find_longest_match_empty_a (b : list Ascii.ascii) :
  Difflib.find_longest_match [] b 0 0 0 (length b) = (0, 0, 0).
Proof. reflexivity. Qed.

Lemma rows_empty_b (a : list Ascii.ascii) (n i : nat) :
  foldl (λ '(j2len, best) i,
           let js := from_option (λ x, default [] (Difflib.chain_b [] !! x)) [] (a !! i) in
           Difflib.scan_row 0 0 i js j2len ∅ best)
        (∅, (0, 0, 0)) (seq i n)
  = (∅, (0, 0, 0)).
Proof.
  revert i. induction n as [|n IH]; intros i; [reflexivity|].
  simpl. destruct (a !! i) as [x|]; simpl; [|apply IH].
  change (Difflib.chain_b []) with (∅ : gmap Ascii.ascii (list nat)).
  rewrite lookup_empty. simpl. apply IH.
Qed.

Lemma find_longest_match_empty_b (a : list Ascii.ascii) :
  Difflib.find_longest_match a [] 0 (length a) 0 0 = (0, 0, 0).
Proof.
  unfold Difflib.find_longest_match. rewrite rows_empty_b. simpl.
  rewrite Nat.sub_0_r. by destruct (length a) as [|n]; simpl; rewrite ?andb_false_r.
Qed.

Lemma get_opcodes_empty_a (b : list Ascii.ascii) :
  b ≠ [] →
  Difflib.get_opcodes [] b
  = Some [ {| Difflib.op := Difflib.Insert; Difflib.i1 := 0; Difflib.i2 := 0;
              Difflib.j1 := 0; Difflib.j2 := length b |} ].
Proof.
  intros Hb. unfold Difflib.get_opcodes, Difflib.get_matching_blocks.
  change (2 * length (@nil Ascii.ascii) + 1) with 1.
  unfold Difflib.matching_loop. change (length (@nil Ascii.ascii)) with 0.
  rewrite find_longest_match_empty_a. simpl.
  destruct b as [|x b]; done.
Qed.

Lemma get_opcodes_empty_b (a : list Ascii.ascii) :
  a ≠ [] →
  Difflib.get_opcodes a []
  = Some [ {| Difflib.op := Difflib.Delete; Difflib.i1 := 0; Difflib.i2 := length a;
              Difflib.j1 := 0; Difflib.j2 := 0 |} ].
Proof.
  intros Ha. unfold Difflib.get_opcodes, Difflib.get_matching_blocks.
  replace (2 * length a + 1) with (S (2 * length a)) by lia.
  cbn [Difflib.matching_loop]. change (length (@nil Ascii.ascii)) with 0.
  rewrite find_longest_match_empty_b. simpl.
  destruct a as [|x a]; done.
Qed.

Lemma str_empty (s : string) : s ≠ "" → str s ≠ [].
Proof. by destruct s. Qed.

(** X13.  Against the empty string there is nothing to align: a text
    compared with the empty string is reported removed as a whole, and the
    empty string compared with a text reports that text added as a whole,
    each in one span over the full range. *)
Theorem compare_text_content_empty (text : string) :
  text ≠ "" →
  compare_text_content text ""
  = Some [ {| sp_type := "removed"; sp_text := text; sp_full_text := text;
              sp_range := (0, String.length text) |} ]
  ∧ compare_text_content "" text
    = Some [ {| sp_type := "added"; sp_text := text; sp_full_text := text;
                sp_range := (0, String.length text) |} ].
Proof.
  intros Hne. apply str_empty in Hne. unfold compare_text_content. split.
  - fold (str text). change (String.list_ascii_of_string "") with (@nil Ascii.ascii).
    rewrite (get_opcodes_empty_b _ Hne). simpl.
    unfold Py.slice. by rewrite str_length, Nat.sub_0_r, substring_all.
  - fold (str text). change (String.list_ascii_of_string "") with (@nil Ascii.ascii).
    rewrite (get_opcodes_empty_a _ Hne). simpl.
    unfold Py.slice. by rewrite str_length, Nat.sub_0_r, substring_all.
Qed.

Lemma compare_text_content_empty_witness :
  compare_text_content "gone" ""
  = Some [ {| sp_type := "removed"; sp_text := "gone"; sp_full_text := "gone";
              sp_range := (0, 4) |} ].
Proof. by apply (compare_text_content_empty "gone"). Defined.

(** ** The request handler *)

(** A value with a [len] is false in an [if] exactly when its [len] is 0. *)
Lemma truthy_len (x : json) (n : nat) :
  Py.len x = Ok n → Py.truthy x = negb (n =? 0).
Proof.
  destruct x as [| | |s|l|m]; simpl; try done; intros [= <-].
  - by destruct s.
  - by destruct l.
  - by destruct m.
Qed.

Lemma len_iter (x : json) (n : nat) :
  Py.len x = Ok n → ∃ items, Py.iter x = Ok items ∧ length items = n.
Proof.
  destruct x as [| | |s|l|m]; simpl; try done; intros [= <-]; eexists; split; try done.
  - apply chars_length.
  - by rewrite !length_fmap.
Qed.

(** X14.  A [POST] whose body is a JSON object is answered with status 400
    and the message "Both content1 and content2 are required" exactly when
    both contents have a length and one of them is empty; a key that is
    missing counts as the empty list. *)
Theorem compare_syllabi_required (m : list (string * json)) :
  compare_syllabi (post (JObj m))
  = (ErrorBody "Both content1 and content2 are required", 400)
  ↔ ∃ n1 n2,
      Py.len (default (JArr []) (Py.assoc "content1" m)) = Ok n1
      ∧ Py.len (default (JArr []) (Py.assoc "content2" m)) = Ok n2
      ∧ (n1 = 0 ∨ n2 = 0).
Proof.
  unfold compare_syllabi, post, compare_body. simpl.
  set (content1 := default (JArr []) (Py.assoc "content1" m)).
  set (content2 := default (JArr []) (Py.assoc "content2" m)).
  destruct (Py.len content1) as [n1|e1] eqn:H1; simpl.
  2:{ split; [done | by intros (? & ? & ? & _)]. }
  destruct (Py.len content2) as [n2|e2] eqn:H2; simpl.
  2:{ split; [done | by intros (? & ? & _ & ? & _)]. }
  rewrite (truthy_len _ _ H1), (truthy_len _ _ H2), !negb_involutive.
  split.
  - intros H. exists n1, n2. repeat split.
    destruct n1, n2; simpl in *; try lia.
    destruct (len_iter _ _ H1) as (items1 & Hi1 & _).
    destruct (len_iter _ _ H2) as (items2 & Hi2 & _).
    rewrite Hi1, Hi2 in H. simpl in H. by destruct (diff_content items1 items2).
  - intros (? & ? & [= <-] & [= <-] & Hn).
    by destruct Hn as [->| ->]; simpl; rewrite ?orb_true_r.
Qed.

Lemma compare_syllabi_required_witness :
  compare_syllabi (post (JObj [("content1", JArr [paragraph_item ["A"]])]))
  = (ErrorBody "Both content1 and content2 are required", 400).
Proof.
  apply (compare_syllabi_required [("content1", JArr [paragraph_item ["A"]])]).
  exists 1, 0. repeat split. by right.
Defined.

(** X15.  A body that is not a JSON object is answered with status 500 and
    the [AttributeError] of [data.get]; and so is, with the [TypeError] of
    [len], an object in which ["content1"] or ["content2"] is present but
    is [null], a bool or a number: these are not answered with 400. *)
Theorem compare_syllabi_bad_body :
  (∀ data, (∀ m, data ≠ JObj m) →
     compare_syllabi (post data) = (ExceptionBody (Some AttributeError), 500))
  ∧ (∀ m,
       Py.len (default (JArr []) (Py.assoc "content1" m)) = Raise TypeError
       ∨ Py.len (default (JArr []) (Py.assoc "content2" m)) = Raise TypeError →
       compare_syllabi (post (JObj m)) = (ExceptionBody (Some TypeError), 500)).
Proof.
  split.
  - intros data Hnd. unfold compare_syllabi, post, compare_body. simpl.
    destruct data; try done. by destruct (Hnd m).
  - intros m Hbad. unfold compare_syllabi, post, compare_body. simpl.
    destruct (Py.len (default (JArr []) (Py.assoc "content1" m))) as [n1|e1] eqn:H1;
      simpl.
    + destruct Hbad as [?| ->]; done.
    + destruct (default (JArr []) (Py.assoc "content1" m)); simpl in H1; try done;
        by injection H1 as <-.
Qed.

Lemma compare_syllabi_bad_body_witness :
  compare_syllabi (post (JObj [("content1", JNull); ("content2", JArr [JObj []])]))
  = (ExceptionBody (Some TypeError), 500)
  ∧ compare_syllabi (post (JArr [])) = (ExceptionBody (Some AttributeError), 500).
Proof.
  destruct compare_syllabi_bad_body as [Hdata Hcontent]. split.
  - apply Hcontent. by left.
  - by apply Hdata.
Defined.

(** X16.  A [POST] with two lists that are not empty is answered with the
    records of [diff_content] on them and status 200, or with the exception
    of [diff_content] and status 500. *)
Theorem compare_syllabi_lists (m : list (string * json)) (content1 content2 : list json) :
  Py.assoc "content1" m = Some (JArr content1) →
  Py.assoc "content2" m = Some (JArr content2) →
  content1 ≠ [] → content2 ≠ [] →
  compare_syllabi (post (JObj m))
  = match diff_content content1 content2 with
    | Ok diffs => (DiffsBody diffs, 200)
    | Raise e => (ExceptionBody (Some e), 500)
    end.
Proof.
  intros H1 H2 Hne1 Hne2. unfold compare_syllabi, post, compare_body. simpl.
  rewrite H1, H2. simpl.
  rewrite !bool_decide_eq_false_2 by done. simpl.
  by destruct (diff_content content1 content2).
Qed.

Lemma compare_syllabi_lists_witness :
  compare_syllabi
    (post (JObj [("content1", JArr [paragraph_item ["Hello"]]);
                 ("content2", JArr [paragraph_item ["Hello"]; paragraph_item ["B"]])]))
  = (DiffsBody [added (plain "B")], 200).
Proof.
  by apply (compare_syllabi_lists _ [paragraph_item ["Hello"]]
              [paragraph_item ["Hello"]; paragraph_item ["B"]]).
Defined.
